(** * wunderlust-example: the chat client's run / poll / tool-dispatch protocol

    A shallow embedding of

    - [src/frontend/src/app.tsx], the [App] component (the version without
      audio recording):
      [createThread], [sendMessage], [onSendMessage], [updateMap],
      [addMarker], [chatbotFunctions], [invokeChatbotFunctions],
      [updateMessages], [getRoleName], [renderText], [onKeyDown], the mount
      and polling effects, the timeout callback, and the message list and
      input controls of the returned markup; of the version with audio
      recording, [onResetThread];
    - the relay backend (the Express file): [sendMessage] and the five
      [/chat] routes.

    An [async] function is a finite tree of suspension points (one per
    awaited remote call); the component's React state, its [threadId] ref,
    the [localStorage] entry and the pending timeouts form one record that
    is threaded through.  JavaScript built-ins that the code calls
    ([JSON.parse], [String.prototype.trim], the members every object inherits
    from [Object.prototype]) are gathered in the class [Builtins]. *)

From Stdlib Require Import String Ascii List ZArith Bool Lia Permutation.
Import ListNotations.
Local Open Scope string_scope.
Local Open Scope list_scope.

Set Implicit Arguments.

(* ================================================================== *)
(** ** JavaScript values and promise outcomes *)
(* ================================================================== *)

(** The values [JSON.parse] can return, plus [undefined].  A number is kept
    as the decimal literal it was written with (mantissa and power of ten);
    no arithmetic is ever done on it by the code modelled here. *)
#[warnings="-register-all"] Inductive jsval : Type :=
| JUndefined
| JNull
| JBool (b : bool)
| JNum (mantissa exponent : Z)
| JStr (s : string)
| JArr (items : list jsval)
| JObj (fields : list (string * jsval)).

(** A thrown value, identified by the [name] of the error object. *)
Definition error := string.

Definition TypeError : error := "TypeError".
Definition SyntaxError : error := "SyntaxError".

(** How a promise (or a synchronous call that may throw) settles. *)
Inductive outcome (A : Type) : Type :=
| Resolved (a : A)
| Rejected (e : error).

Arguments Resolved {A} a.
Arguments Rejected {A} e.

Definition is_resolved {A} (o : outcome A) : bool :=
  match o with Resolved _ => true | Rejected _ => false end.

(** Own-property read on a value produced by [JSON.parse]: in an object
    literal with a repeated key the last occurrence wins; arrays, strings,
    numbers and booleans have no own property under a non-index,
    non-[length] name. *)
Fixpoint assoc_last (k : string) (fields : list (string * jsval)) : option jsval :=
  match fields with
  | [] => None
  | (k', v) :: rest =>
      match assoc_last k rest with
      | Some w => Some w
      | None => if String.eqb k k' then Some v else None
      end
  end.

Definition own_prop (k : string) (v : jsval) : jsval :=
  match v with
  | JObj fields => match assoc_last k fields with Some w => w | None => JUndefined end
  | _ => JUndefined
  end.

(** Destructuring a parameter ([{ a, b }]) throws on [null] and
    [undefined] and reads properties off anything else. *)
Definition destructurable (v : jsval) : bool :=
  match v with
  | JUndefined | JNull => false
  | _ => true
  end.

(** JavaScript truthiness of [string | undefined] and [string | null]. *)
Definition truthy (o : option string) : bool :=
  match o with
  | Some s => negb (String.eqb s "")
  | None => false
  end.

(* ================================================================== *)
(** ** Async functions as trees of suspension points *)
(* ================================================================== *)

Section Async.

(** [E R] is a remote call answered with an [R]; [S] is the store the
    function mutates. *)
Variable E : Type -> Type.
Variable S : Type.

(** [Done o s]: the promise settles as [o], leaving store [s].
    [Await rq s k]: the function is suspended on the remote call [rq];
    [s] is the store as the rest of the program sees it meanwhile; [k]
    resumes with the call's outcome. *)
Inductive Proc (A : Type) : Type :=
| Done (o : outcome A) (s : S)
| Await (R : Type) (rq : E R) (s : S) (k : outcome R -> Proc A).

Arguments Done {A} o s.
Arguments Await {A R} rq s k.

(** [await p] followed by the rest of the function body; a rejection
    propagates. *)
Fixpoint andThen {A B} (p : Proc A) (f : A -> S -> Proc B) : Proc B :=
  match p with
  | Done (Resolved a) s => f a s
  | Done (Rejected e) s => Done (Rejected e) s
  | Await rq s k => Await rq s (fun r => andThen (k r) f)
  end.

(** The environment answers every call. *)
Definition Answers := forall R, E R -> outcome R.

Section Run.
Variable Ev : Type.
Variable log : forall R, E R -> outcome R -> Ev.
Variable env : Answers.

(** Run to completion: how the promise settles, the final store and
    the remote calls issued, in order. *)
Fixpoint run {A} (p : Proc A) : outcome A * S * list Ev :=
  match p with
  | Done o s => (o, s, [])
  | Await rq s k =>
      let r := env rq in
      let '(o, s', tr) := run (k r) in
      (o, s', log rq r :: tr)
  end.
End Run.

(** The store at the first suspension point, if the function suspends. *)
Definition suspended_store {A} (p : Proc A) : option S :=
  match p with
  | Done _ _ => None
  | Await _ s _ => Some s
  end.

End Async.

Arguments Done {E S A} o s.
Arguments Await {E S A R} rq s k.

(* ================================================================== *)
(** ** The data exchanged with the relay backend *)
(* ================================================================== *)

(** One part of a message's [content]; only [type === "text"] parts carry
    [text.value]. *)
Inductive ContentPart : Type :=
| TextPart (value : string)
| OtherPart (type : string).

(** [ThreadMessage] of the OpenAI client library (its declaration is not
    part of the repository): the fields the component reads ([role],
    [content]) and the creation time the API attaches to each message. *)
Record ThreadMessage : Type := {
  msg_id : string;
  created_at : Z;
  role : string;
  content : list ContentPart;
}.

(** An entry of [run.required_action.submit_tool_outputs.tool_calls]. *)
Record ToolCall : Type := {
  tc_id : string;
  tc_type : string;
  fn_name : string;
  fn_arguments : string;
}.

Record RequiredAction : Type := {
  ra_type : string;
  tool_calls : list ToolCall;
}.

Record Run : Type := {
  run_id : string;
  required_action : option RequiredAction;
}.

(** An entry of the [outputs] array posted to [/chat/submit]. *)
Record ToolOutput : Type := {
  tool_call_id : string;
  output : jsval;
}.

(** [data] of a [/chat/list] response. *)
Record ListData : Type := {
  d_messages : list ThreadMessage;
  d_status : option string;
  d_run : option Run;
}.

(** [status === name], where [status] is [data.status]. *)
Definition status_is (data : ListData) (name : string) : bool :=
  match d_status data with
  | Some status => String.eqb status name
  | None => false
  end.

(** The four [axios.post] calls of the component, indexed by the part of
    [data] the caller reads.  A key whose value is [undefined] is dropped
    from the JSON body, hence the options. *)
Inductive Request : Type -> Type :=
| PostChatNew : Request string
| PostChatSend (threadId : option string) (text : string) : Request string
| PostChatList (threadId runId : option string) : Request ListData
| PostChatSubmit (threadId runId : option string) (outputs : list ToolOutput) : Request unit.

(** A remote call as it appears in a trace. *)
Inductive Wire : Type :=
| WNew (reply : outcome string)
| WSend (threadId : option string) (text : string) (reply : outcome string)
| WList (threadId runId : option string) (reply : outcome ListData)
| WSubmit (threadId runId : option string) (outputs : list ToolOutput) (reply : outcome unit).

Definition wire {R} (rq : Request R) : outcome R -> Wire :=
  match rq in Request R return outcome R -> Wire with
  | PostChatNew => WNew
  | PostChatSend t x => WSend t x
  | PostChatList t r => WList t r
  | PostChatSubmit t r o => WSubmit t r o
  end.

(* ================================================================== *)
(** ** The component's store *)
(* ================================================================== *)

Record MapCenter : Type := {
  latitude : jsval;
  longitude : jsval;
}.

Record MapMarker : Type := {
  marker_latitude : jsval;
  marker_longitude : jsval;
  marker_label : jsval;
}.

(** What a pending [setTimeout] callback will do. *)
Inductive TimerAction : Type :=
| ClearRunId.

(** [threadId] is the [useRef] cell; [runId], [messages], [message],
    [mapCenter], [mapZoom] and [mapMarker] are the [useState] cells;
    [localStorage] is the entry under the key ["threadId"]; [timeouts] are
    the callbacks registered with [setTimeout] (delay in milliseconds).
    The two visibility flags ([chatbotVisible], [showInfo]) play no part in
    the protocol and are left out. *)
Record State : Type := {
  threadId : option string;
  runId : option string;
  messages : list ThreadMessage;
  message : string;
  mapCenter : MapCenter;
  mapZoom : jsval;
  mapMarker : option MapMarker;
  localStorage : option string;
  timeouts : list (nat * TimerAction);
}.

Definition set_threadId (v : option string) (s : State) : State :=
  {| threadId := v; runId := runId s; messages := messages s;
     message := message s; mapCenter := mapCenter s; mapZoom := mapZoom s;
     mapMarker := mapMarker s; localStorage := localStorage s;
     timeouts := timeouts s |}.

Definition setRunId (v : option string) (s : State) : State :=
  {| threadId := threadId s; runId := v; messages := messages s;
     message := message s; mapCenter := mapCenter s; mapZoom := mapZoom s;
     mapMarker := mapMarker s; localStorage := localStorage s;
     timeouts := timeouts s |}.

Definition setMessages (v : list ThreadMessage) (s : State) : State :=
  {| threadId := threadId s; runId := runId s; messages := v;
     message := message s; mapCenter := mapCenter s; mapZoom := mapZoom s;
     mapMarker := mapMarker s; localStorage := localStorage s;
     timeouts := timeouts s |}.

Definition setMessage (v : string) (s : State) : State :=
  {| threadId := threadId s; runId := runId s; messages := messages s;
     message := v; mapCenter := mapCenter s; mapZoom := mapZoom s;
     mapMarker := mapMarker s; localStorage := localStorage s;
     timeouts := timeouts s |}.

Definition setMapCenter (v : MapCenter) (s : State) : State :=
  {| threadId := threadId s; runId := runId s; messages := messages s;
     message := message s; mapCenter := v; mapZoom := mapZoom s;
     mapMarker := mapMarker s; localStorage := localStorage s;
     timeouts := timeouts s |}.

Definition setMapZoom (v : jsval) (s : State) : State :=
  {| threadId := threadId s; runId := runId s; messages := messages s;
     message := message s; mapCenter := mapCenter s; mapZoom := v;
     mapMarker := mapMarker s; localStorage := localStorage s;
     timeouts := timeouts s |}.

Definition setMapMarker (v : option MapMarker) (s : State) : State :=
  {| threadId := threadId s; runId := runId s; messages := messages s;
     message := message s; mapCenter := mapCenter s; mapZoom := mapZoom s;
     mapMarker := v; localStorage := localStorage s;
     timeouts := timeouts s |}.

Definition localStorage_setItem (v : string) (s : State) : State :=
  {| threadId := threadId s; runId := runId s; messages := messages s;
     message := message s; mapCenter := mapCenter s; mapZoom := mapZoom s;
     mapMarker := mapMarker s; localStorage := Some v;
     timeouts := timeouts s |}.

Definition setTimeout (a : TimerAction) (ms : nat) (s : State) : State :=
  {| threadId := threadId s; runId := runId s; messages := messages s;
     message := message s; mapCenter := mapCenter s; mapZoom := mapZoom s;
     mapMarker := mapMarker s; localStorage := localStorage s;
     timeouts := timeouts s ++ [(ms, a)] |}.

(** The store of a freshly mounted component; [stored] is what the browser
    kept under ["threadId"]. *)
Definition initialState (stored : option string) : State :=
  {| threadId := None; runId := None; messages := []; message := "";
     mapCenter := {| latitude := JNum 51505 (-3); longitude := JNum (-9) (-2) |};
     mapZoom := JNum 13 0;
     mapMarker := None;
     localStorage := stored;
     timeouts := [] |}.

(** Reloading the page: every cell starts afresh, [localStorage] survives. *)
Definition reload (s : State) : State := initialState (localStorage s).

(** A due timeout runs its callback. *)
Definition runTimer (a : TimerAction) (s : State) : State :=
  match a with
  | ClearRunId => setRunId None s
  end.

(** The [useEffect] on [runId]: the 10-second polling interval exists
    exactly while [runId !== undefined]. *)
Definition pollingActive (s : State) : bool :=
  match runId s with Some _ => true | None => false end.

(** The input box and the send button are [disabled={runId !== undefined}]. *)
Definition inputDisabled (s : State) : bool :=
  match runId s with Some _ => true | None => false end.

(* ================================================================== *)
(** ** The tool handlers and the registry *)
(* ================================================================== *)

(** The destructured parameter of [updateMap]. *)
Record UpdateMapArgs : Type := {
  um_longitude : jsval;
  um_latitude : jsval;
  um_zoom : jsval;
}.

(** The destructured parameter of [addMarker]. *)
Record AddMarkerArgs : Type := {
  am_latitude : jsval;
  am_longitude : jsval;
  am_label : jsval;
}.

Definition updateMap (a : UpdateMapArgs) (s : State) : string * State :=
  let s1 := setMapCenter {| latitude := um_latitude a; longitude := um_longitude a |} s in
  let s2 := setMapZoom (um_zoom a) s1 in
  ("Map updated", s2).

Definition addMarker (a : AddMarkerArgs) (s : State) : string * State :=
  let s1 := setMapMarker (Some {| marker_latitude := am_latitude a;
                                  marker_longitude := am_longitude a;
                                  marker_label := am_label a |}) s in
  ("Marker added", s1).

(** Binding the untyped [toolArgs] to the destructuring parameter. *)
Definition bind_updateMap (toolArgs : jsval) : outcome UpdateMapArgs :=
  if destructurable toolArgs
  then Resolved {| um_longitude := own_prop "longitude" toolArgs;
                   um_latitude := own_prop "latitude" toolArgs;
                   um_zoom := own_prop "zoom" toolArgs |}
  else Rejected TypeError.

Definition bind_addMarker (toolArgs : jsval) : outcome AddMarkerArgs :=
  if destructurable toolArgs
  then Resolved {| am_latitude := own_prop "latitude" toolArgs;
                   am_longitude := own_prop "longitude" toolArgs;
                   am_label := own_prop "label" toolArgs |}
  else Rejected TypeError.

Inductive Handler : Type :=
| HUpdateMap
| HAddMarker.

(** What [chatbotFunctions[functionName]] evaluates to: one of the two own
    properties of the object literal, a member found further up on
    [Object.prototype], or [undefined]. *)
Inductive Member : Type :=
| Own (h : Handler)
| Inherited
| Missing.

Definition objectPrototypeMembers : list string :=
  [ "constructor"; "__defineGetter__"; "__defineSetter__"; "hasOwnProperty";
    "__lookupGetter__"; "__lookupSetter__"; "isPrototypeOf";
    "propertyIsEnumerable"; "toString"; "valueOf"; "__proto__";
    "toLocaleString" ].

Definition chatbotFunctions (functionName : string) : Member :=
  if String.eqb functionName "updateMap" then Own HUpdateMap
  else if String.eqb functionName "addMarker" then Own HAddMarker
  else if existsb (String.eqb functionName) objectPrototypeMembers then Inherited
  else Missing.

(** The built-ins the component calls.
    - [JSON_parse]: [None] when [JSON.parse] throws its [SyntaxError].
    - [String_trim]: [String.prototype.trim].
    - [Object_prototype_call name args]: calling, on the registry object,
      the member [name] it inherits from [Object.prototype]; [None] when
      the call throws (a [TypeError]); otherwise the value returned, as the
      JSON body of the submission will carry it. *)
Class Builtins : Type := {
  JSON_parse : string -> option jsval;
  String_trim : string -> string;
  Object_prototype_call : string -> jsval -> option jsval;
}.

(* ================================================================== *)
(** ** The component's functions *)
(* ================================================================== *)

Definition Task (A : Type) : Type := Proc Request State A.

Section Frontend.

Context {B : Builtins}.

(** [chatbotFunctions[functionName](toolArgs)]. *)
Definition callChatbotFunction (functionName : string) (toolArgs : jsval) (s : State)
  : outcome jsval * State :=
  match chatbotFunctions functionName with
  | Own HUpdateMap =>
      match bind_updateMap toolArgs with
      | Resolved a => let '(out, s') := updateMap a s in (Resolved (JStr out), s')
      | Rejected e => (Rejected e, s)
      end
  | Own HAddMarker =>
      match bind_addMarker toolArgs with
      | Resolved a => let '(out, s') := addMarker a s in (Resolved (JStr out), s')
      | Rejected e => (Rejected e, s)
      end
  | Inherited =>
      match Object_prototype_call functionName toolArgs with
      | Some v => (Resolved v, s)
      | None => (Rejected TypeError, s)
      end
  | Missing => (Rejected TypeError, s)
  end.

(** The [for ... of] loop of [invokeChatbotFunctions]; [outputs] is the
    array built so far.  A throw leaves the loop with the store as the
    handlers already run have left it. *)
Fixpoint dispatchLoop (tcs : list ToolCall) (outputs : list ToolOutput) (s : State)
  : outcome (list ToolOutput) * State :=
  match tcs with
  | [] => (Resolved outputs, s)
  | toolCall :: rest =>
      if String.eqb (tc_type toolCall) "function" then
        match JSON_parse (fn_arguments toolCall) with
        | None => (Rejected SyntaxError, s)
        | Some toolArgs =>
            match callChatbotFunction (fn_name toolCall) toolArgs s with
            | (Resolved functionOutput, s') =>
                dispatchLoop rest
                  (outputs ++ [ {| tool_call_id := tc_id toolCall;
                                   output := functionOutput |} ]) s'
            | (Rejected e, s') => (Rejected e, s')
            end
        end
      else dispatchLoop rest outputs s
  end.

(** [run] is [data.run] of the poll; it is [undefined] when the poll was
    made without a run id, and reading [run.required_action] then throws. *)
Definition invokeChatbotFunctions (run : option Run) (s : State) : Task unit :=
  match run with
  | None => Done (Rejected TypeError) s
  | Some run =>
      match required_action run with
      | Some ra =>
          if String.eqb (ra_type ra) "submit_tool_outputs" then
            match dispatchLoop (tool_calls ra) [] s with
            | (Resolved outputs, s') =>
                Await (PostChatSubmit (threadId s') (runId s') outputs) s'
                  (fun r => match r with
                            | Resolved _ => Done (Resolved tt) s'
                            | Rejected e => Done (Rejected e) s'
                            end)
            | (Rejected e, s') => Done (Rejected e) s'
            end
          else Done (Resolved tt) s
      | None => Done (Resolved tt) s
      end
  end.

Definition updateMessages (s : State) : Task unit :=
  Await (PostChatList (threadId s) (runId s)) s
    (fun r =>
       match r with
       | Rejected e => Done (Rejected e) s
       | Resolved data =>
           let s1 := setMessages (rev (d_messages data)) s in
           andThen
             (if status_is data "requires_action"
              then invokeChatbotFunctions (d_run data) s1
              else Done (Resolved tt) s1)
             (fun _ s2 =>
                if truthy (runId s) then
                  if status_is data "completed"
                  then Done (Resolved tt) (setTimeout ClearRunId 5000 s2)
                  else Done (Resolved tt) s2
                else Done (Resolved tt) s2)
       end).

(** The analytics call ([mixpanel.identify]) that ends the function
    touches nothing modelled here. *)
Definition createThread (s : State) : Task unit :=
  andThen
    (match threadId s with
     | None =>
         if truthy (localStorage s)
         then updateMessages (set_threadId (localStorage s) s)
         else Done (Resolved tt) s
     | Some _ => Done (Resolved tt) s
     end)
    (fun _ s1 =>
       match threadId s1 with
       | Some _ => Done (Resolved tt) s1
       | None =>
           Await PostChatNew s1
             (fun r =>
                match r with
                | Rejected e => Done (Rejected e) s1
                | Resolved newId =>
                    let s2 := set_threadId (Some newId) s1 in
                    Done (Resolved tt) (localStorage_setItem newId s2)
                end)
       end).

Definition sendMessage (text : string) (s : State) : Task unit :=
  match runId s with
  | Some _ => Done (Resolved tt) s
  | None =>
      Await (PostChatSend (threadId s) text) s
        (fun r =>
           match r with
           | Rejected e => Done (Rejected e) s
           | Resolved newRun => Done (Resolved tt) (setRunId (Some newRun) s)
           end)
  end.

Definition onSendMessage (s : State) : Task unit :=
  let messageToSend := String_trim (message s) in
  let s1 := setMessage "" s in
  sendMessage messageToSend s1.

End Frontend.

(** Running a task against an environment that answers the requests. *)
Definition runTask {A} (env : Answers Request) (p : Task A)
  : outcome A * State * list Wire :=
  run (@wire) env p.

Definition settled {A} (x : outcome A * State * list Wire) : outcome A := fst (fst x).
Definition store {A} (x : outcome A * State * list Wire) : State := snd (fst x).
Definition calls {A} (x : outcome A * State * list Wire) : list Wire := snd x.

Definition is_submit (w : Wire) : bool :=
  match w with WSubmit _ _ _ _ => true | _ => false end.

Definition is_new (w : Wire) : bool :=
  match w with WNew _ => true | _ => false end.

(** A tool call the loop completes: it is a function call, its arguments
    parse, and the name resolves to something that returns when called
    with them. *)
Definition dispatchable {B : Builtins} (toolCall : ToolCall) : bool :=
  String.eqb (tc_type toolCall) "function" &&
  match JSON_parse (fn_arguments toolCall) with
  | None => false
  | Some toolArgs =>
      match chatbotFunctions (fn_name toolCall) with
      | Own _ => destructurable toolArgs
      | Inherited =>
          match Object_prototype_call (fn_name toolCall) toolArgs with
          | Some _ => true
          | None => false
          end
      | Missing => false
      end
  end.

Definition is_function_call (toolCall : ToolCall) : bool :=
  String.eqb (tc_type toolCall) "function".

(* ================================================================== *)
(** ** The message list of the markup *)
(* ================================================================== *)

Definition getRoleName (role : string) : string :=
  if String.eqb role "user" then "You"
  else if String.eqb role "assistant" then "AI"
  else role.

(** [text.split("\n")]. *)
Fixpoint split_lines (text : string) : list string :=
  match text with
  | EmptyString => [""]
  | String c rest =>
      if Ascii.eqb c "010"%char then "" :: split_lines rest
      else match split_lines rest with
           | line :: lines => String c line :: lines
           | [] => [String c ""]
           end
  end.

(** One [<p>]: the role name (on the first line only) and the line handed
    to the Markdown component. *)
Record Paragraph : Type := {
  heading : option string;
  markdown : string;
}.

Fixpoint renderLines (index : nat) (lines : list string) (role : string) : list Paragraph :=
  match lines with
  | [] => []
  | line :: rest =>
      {| heading := if Nat.eqb index 0 then Some (getRoleName role) else None;
         markdown := line |} :: renderLines (Datatypes.S index) rest role
  end.

Definition renderText (text role : string) : list Paragraph :=
  renderLines 0 (split_lines text) role.

(** [message.content.map(...)]: a text part is rendered, any other part
    yields [undefined]. *)
Definition renderMessage (m : ThreadMessage) : list (option (list Paragraph)) :=
  map (fun c => match c with
                | TextPart value => Some (renderText value (role m))
                | OtherPart _ => None
                end) (content m).

(** [messages.map(...)] of the markup: what the log shows, top to bottom. *)
Definition renderLog (s : State) : list (list (option (list Paragraph))) :=
  map renderMessage (messages s).

(** The message shown at the bottom of the log. *)
Definition shownLast (s : State) : option ThreadMessage :=
  last (map Some (messages s)) None.

(** [m] is a newest message of the snapshot. *)
Definition newest (snapshot : list ThreadMessage) (m : ThreadMessage) : Prop :=
  In m snapshot /\ forall m', In m' snapshot -> (created_at m' <= created_at m)%Z.

(* ================================================================== *)
(** ** The relay backend *)
(* ================================================================== *)

Module Backend.

(** The awaited calls of the backend's [sendMessage]: two to the
    Assistants API, one to the document store (its [addedDate] is left
    out). *)
Inductive Call : Type -> Type :=
| MessagesCreate (threadId role content : string) : Call unit
| RunsCreate (threadId assistant_id : string) : Call Run
| InsertMessage (threadId runId text ip : string) : Call unit.

Inductive Event : Type :=
| EMessagesCreate (threadId role content : string) (reply : outcome unit)
| ERunsCreate (threadId assistant_id : string) (reply : outcome Run)
| EInsertMessage (threadId runId text ip : string) (reply : outcome unit).

Definition event {R} (c : Call R) : outcome R -> Event :=
  match c in Call R return outcome R -> Event with
  | MessagesCreate t r c => EMessagesCreate t r c
  | RunsCreate t a => ERunsCreate t a
  | InsertMessage t r x i => EInsertMessage t r x i
  end.

Section Relay.

(** [process.env.ASSISTANT_ID]. *)
Variable ASSISTANT_ID : string.

Definition sendMessage (threadId text clientIp : string) : Proc Call unit Run :=
  Await (MessagesCreate threadId "user" text) tt
    (fun r1 =>
       match r1 with
       | Rejected e => Done (Rejected e) tt
       | Resolved _ =>
           Await (RunsCreate threadId ASSISTANT_ID) tt
             (fun r2 =>
                match r2 with
                | Rejected e => Done (Rejected e) tt
                | Resolved run =>
                    Await (InsertMessage threadId (run_id run) text clientIp) tt
                      (fun r3 =>
                         match r3 with
                         | Rejected e => Done (Rejected e) tt
                         | Resolved _ => Done (Resolved run) tt
                         end)
                end)
       end).

End Relay.

(** What lies beyond the backend: the messages and runs of the remote
    threads and the [messages] collection of the document store. *)
Record Remote : Type := {
  thread_messages : list (string * string * string);
  thread_runs : list (string * string);
  db_messages : list (string * string * string * string);
}.

(** A call that resolved has taken effect; a call that rejected has
    not. *)
Definition effect (ev : Event) (w : Remote) : Remote :=
  match ev with
  | EMessagesCreate t r c (Resolved _) =>
      {| thread_messages := thread_messages w ++ [(t, r, c)];
         thread_runs := thread_runs w;
         db_messages := db_messages w |}
  | ERunsCreate t _ (Resolved run) =>
      {| thread_messages := thread_messages w;
         thread_runs := thread_runs w ++ [(t, run_id run)];
         db_messages := db_messages w |}
  | EInsertMessage t r x i (Resolved _) =>
      {| thread_messages := thread_messages w;
         thread_runs := thread_runs w;
         db_messages := db_messages w ++ [(t, r, x, i)] |}
  | _ => w
  end.

Definition effects (tr : list Event) (w : Remote) : Remote :=
  fold_left (fun w ev => effect ev w) tr w.

(** The runs of a thread. *)
Definition runs_of (threadId : string) (w : Remote) : list string :=
  map snd (filter (fun p => String.eqb (fst p) threadId) (thread_runs w)).

Definition is_run_start (ev : Event) : bool :=
  match ev with ERunsCreate _ _ _ => true | _ => false end.

Definition exec {A} (env : Answers Call) (p : Proc Call unit A) : outcome A * list Event :=
  let '(o, _, tr) := run (@event) env p in (o, tr).

End Backend.

(* ================================================================== *)
(** ** Names of the errors the design calls for *)
(* ================================================================== *)

(** No definition above produces either name. *)
Definition ConflictError : error := "ConflictError".
Definition UnknownFunctionError : error := "UnknownFunctionError".

(* ================================================================== *)
(** ** Predicates used by the statements *)
(* ================================================================== *)

(** Everything but the three map cells is the same in [s'] as in [s]. *)
Definition conversation_untouched (s s' : State) : Prop :=
  threadId s' = threadId s /\ runId s' = runId s /\
  messages s' = messages s /\ message s' = message s /\
  localStorage s' = localStorage s /\ timeouts s' = timeouts s.

(** All three map cells are the same in [s'] as in [s]. *)
Definition map_untouched (s s' : State) : Prop :=
  mapCenter s' = mapCenter s /\ mapZoom s' = mapZoom s /\ mapMarker s' = mapMarker s.

(* ================================================================== *)
(** ** A browser for the examples *)
(* ================================================================== *)

Module Example.

Definition quote : string := String "034"%char "".

(** The text [{ "longitude": 2.35, "latitude": 48.85, "zoom": 12 }],
    without the blanks. *)
Definition paris_arguments : string :=
  "{" ++ quote ++ "longitude" ++ quote ++ ":2.35,"
      ++ quote ++ "latitude" ++ quote ++ ":48.85,"
      ++ quote ++ "zoom" ++ quote ++ ":12}".

Definition paris : jsval :=
  JObj [ ("longitude", JNum 235 (-2)); ("latitude", JNum 4885 (-2)); ("zoom", JNum 12 0) ].

(** [JSON.parse] on the texts the examples hand to it; the last case is
    reached by the malformed text ["{"] only. *)
Definition parse (text : string) : option jsval :=
  if String.eqb text "{}" then Some (JObj [])
  else if String.eqb text "null" then Some JNull
  else if String.eqb text paris_arguments then Some paris
  else None.

Definition is_space (c : ascii) : bool :=
  match nat_of_ascii c with
  | 9 | 10 | 11 | 12 | 13 | 32 => true
  | _ => false
  end.

Fixpoint trim_start (text : string) : string :=
  match text with
  | String c rest => if is_space c then trim_start rest else text
  | EmptyString => EmptyString
  end.

Fixpoint trim_end (text : string) : string :=
  match text with
  | String c rest =>
      match trim_end rest with
      | EmptyString => if is_space c then EmptyString else String c EmptyString
      | kept => String c kept
      end
  | EmptyString => EmptyString
  end.

(** [trim] on text whose white space is ASCII. *)
Definition trim (text : string) : string := trim_end (trim_start text).

(** Does the property key made from [v] spell [name]?  ([name] holds no
    comma, so among arrays only a one-element array can.) *)
Fixpoint key_is (name : string) (v : jsval) : bool :=
  match v with
  | JStr k => String.eqb k name
  | JArr [item] => key_is name item
  | _ => false
  end.

(** The members of [Object.prototype], called on the registry object
    with one argument that came out of [JSON.parse]. *)
Definition object_prototype_call (name : string) (arg : jsval) : option jsval :=
  if String.eqb name "toString" || String.eqb name "toLocaleString"
  then Some (JStr "[object Object]")
  else if String.eqb name "valueOf" then Some (JObj [])
  else if String.eqb name "constructor"
  then Some (match arg with JUndefined | JNull => JObj [] | _ => arg end)
  else if String.eqb name "isPrototypeOf" then Some (JBool false)
  else if String.eqb name "hasOwnProperty" || String.eqb name "propertyIsEnumerable"
  then Some (JBool (key_is "updateMap" arg || key_is "addMarker" arg))
  else if String.eqb name "__lookupGetter__" || String.eqb name "__lookupSetter__"
  then Some JUndefined
  else None.

Definition browser : Builtins :=
  {| JSON_parse := parse;
     String_trim := trim;
     Object_prototype_call := object_prototype_call |}.

Definition updateMapCall : ToolCall :=
  {| tc_id := "call_1"; tc_type := "function";
     fn_name := "updateMap"; fn_arguments := paris_arguments |}.

Definition addMarkerCall : ToolCall :=
  {| tc_id := "call_4"; tc_type := "function";
     fn_name := "addMarker"; fn_arguments := "{}" |}.

Definition toStringCall : ToolCall :=
  {| tc_id := "call_5"; tc_type := "function";
     fn_name := "toString"; fn_arguments := "{}" |}.

Definition unknownCall : ToolCall :=
  {| tc_id := "call_2"; tc_type := "function";
     fn_name := "bookFlight"; fn_arguments := "{}" |}.

Definition retrievalCall : ToolCall :=
  {| tc_id := "call_3"; tc_type := "retrieval";
     fn_name := ""; fn_arguments := "" |}.

Definition pending (calls : list ToolCall) : Run :=
  {| run_id := "run_1";
     required_action := Some {| ra_type := "submit_tool_outputs"; tool_calls := calls |} |}.

Definition older : ThreadMessage :=
  {| msg_id := "msg_1"; created_at := 1700000000; role := "user";
     content := [TextPart "Show me Paris"] |}.

Definition newer : ThreadMessage :=
  {| msg_id := "msg_2"; created_at := 1700000007; role := "assistant";
     content := [TextPart "Here is Paris."] |}.

(** A mounted component with a conversation and, optionally, a run. *)
Definition mounted (run : option string) : State :=
  setRunId run (set_threadId (Some "thread_1") (initialState (Some "thread_1"))).

(** An environment that answers [/chat/list] with [data], [/chat/new]
    with ["thread_2"], [/chat/send] with ["run_1"] and acknowledges
    submissions. *)
Definition answering (data : ListData) : Answers Request :=
  fun R rq =>
    match rq in Request R return outcome R with
    | PostChatNew => Resolved "thread_2"
    | PostChatSend _ _ => Resolved "run_1"
    | PostChatList _ _ => Resolved data
    | PostChatSubmit _ _ _ => Resolved tt
    end.

(** An environment in which every call fails. *)
Definition offline : Answers Request :=
  fun R rq => Rejected "AxiosError".

(** A remote that accepts the message and refuses to start the run. *)
Definition refusing : Answers Backend.Call :=
  fun R c =>
    match c in Backend.Call R return outcome R with
    | Backend.MessagesCreate _ _ _ => Resolved tt
    | Backend.RunsCreate _ _ => Rejected "APIError"
    | Backend.InsertMessage _ _ _ _ => Resolved tt
    end.

Definition plain : Run := {| run_id := "run_1"; required_action := None |}.

(** A [/chat/list] answer, newest message first. *)
Definition poll (status : string) (run : Run) : ListData :=
  {| d_messages := [newer; older]; d_status := Some status; d_run := Some run |}.

End Example.

(* ================================================================== *)
(** ** More of the component: effects, controls, reset *)
(* ================================================================== *)

Section AsyncMore.

Variable E : Type -> Type.
Variable S : Type.

(** [p.catch(err => { console.error(...); })]: a rejection is logged and
    the resulting promise resolves. *)
Fixpoint caught {A} (p : Proc E S A) : Proc E S unit :=
  match p with
  | Done _ s => Done (Resolved tt) s
  | Await rq s k => Await rq s (fun r => caught (k r))
  end.

(** The same function, its calls issued through a larger interface. *)
Fixpoint through (F : Type -> Type) (inj : forall R, E R -> F R) {A}
    (p : Proc E S A) : Proc F S A :=
  match p with
  | Done o s => Done o s
  | Await rq s k => Await (inj _ rq) s (fun r => through F inj (k r))
  end.

End AsyncMore.

Definition newline : string := String "010"%char "".

(** [lines.join("\n")]. *)
Fixpoint join_lines (lines : list string) : string :=
  match lines with
  | [] => ""
  | [line] => line
  | line :: rest => line ++ newline ++ join_lines rest
  end.

(** The number of line feeds in a text. *)
Fixpoint count_newlines (text : string) : nat :=
  match text with
  | EmptyString => 0
  | String c rest =>
      if Ascii.eqb c "010"%char then Datatypes.S (count_newlines rest)
      else count_newlines rest
  end.

Definition is_text (c : ContentPart) : bool :=
  match c with TextPart _ => true | OtherPart _ => false end.

Definition set_timeouts (v : list (nat * TimerAction)) (s : State) : State :=
  {| threadId := threadId s; runId := runId s; messages := messages s;
     message := message s; mapCenter := mapCenter s; mapZoom := mapZoom s;
     mapMarker := mapMarker s; localStorage := localStorage s;
     timeouts := v |}.

Definition localStorage_removeItem (s : State) : State :=
  {| threadId := threadId s; runId := runId s; messages := messages s;
     message := message s; mapCenter := mapCenter s; mapZoom := mapZoom s;
     mapMarker := mapMarker s; localStorage := None;
     timeouts := timeouts s |}.

(** The oldest pending timeout falls due: it leaves the list and its
    callback runs.  (All timeouts of the component have the same delay, so
    they fall due in the order of registration.) *)
Definition fireTimeout (s : State) : State :=
  match timeouts s with
  | [] => s
  | (_, a) :: rest => runTimer a (set_timeouts rest s)
  end.

Section Controls.

Context {B : Builtins}.

(** [event.key] is all the handler reads of the keyboard event. *)
Definition onKeyDown (key : string) (s : State) : Task unit :=
  if String.eqb key "Enter" then onSendMessage s else Done (Resolved tt) s.

(** The first [useEffect]: [createThread().catch(...)]. *)
Definition onMount (s : State) : Task unit := caught (createThread s).

(** [onResetThread] of the version with audio recording (whose
    [createThread] is the one above); the scroll position it also resets
    is not modelled.  The task is the promise chain the handler starts. *)
Definition onResetThread (s : State) : Task unit :=
  let s1 := set_threadId None s in
  let s2 := setMessages [] s1 in
  let s3 := setMessage "" s2 in
  let s4 := setRunId None s3 in
  let s5 := localStorage_removeItem s4 in
  caught (createThread s5).

(** What can happen to the mounted component (first version): the mount
    effect, typing ([onChange]), a key pressed in the input, a click on
    Send, a tick of the polling interval, a timeout falling due.  Each
    carries the answers the backend gives while it is handled; each is
    handled to completion before the next.  The input and the button do
    not react while [disabled]; the interval exists only while a run is
    set.  Rendering between two events is not modelled: a sequence of
    events is one the component lives through. *)
Inductive UiEvent : Type :=
| Mounted (env : Answers Request)
| Typed (text : string)
| KeyPressed (key : string) (env : Answers Request)
| SendClicked (env : Answers Request)
| PollTick (env : Answers Request)
| TimeoutDue.

Definition handle (ev : UiEvent) (s : State) : State :=
  match ev with
  | Mounted env => store (runTask env (onMount s))
  | Typed text => if inputDisabled s then s else setMessage text s
  | KeyPressed key env =>
      if inputDisabled s then s else store (runTask env (onKeyDown key s))
  | SendClicked env =>
      if inputDisabled s then s else store (runTask env (onSendMessage s))
  | PollTick env =>
      if pollingActive s then store (runTask env (updateMessages s)) else s
  | TimeoutDue => fireTimeout s
  end.

Definition handleAll (evs : list UiEvent) (s : State) : State :=
  fold_left (fun s ev => handle ev s) evs s.

End Controls.

(** The handler [chatbotFunctions] resolves [functionName] to, if any. *)
Definition own_handler (functionName : string) : option Handler :=
  match chatbotFunctions functionName with
  | Own h => Some h
  | _ => None
  end.

(** What a handler returns. *)
Definition confirmation (h : Handler) : string :=
  match h with
  | HUpdateMap => "Map updated"
  | HAddMarker => "Marker added"
  end.

(** The output entry a call to one of the two handlers gets. *)
Definition receipt (toolCall : ToolCall) : ToolOutput :=
  {| tool_call_id := tc_id toolCall;
     output := match own_handler (fn_name toolCall) with
               | Some h => JStr (confirmation h)
               | None => JUndefined
               end |}.

(** No poll is ever answered with the status ["completed"]. *)
Definition never_completed (env : Answers Request) : Prop :=
  forall t r data,
    env _ (PostChatList t r) = Resolved data -> status_is data "completed" = false.

(** The answers an event is handled with, if it talks to the backend. *)
Definition answers_of (ev : UiEvent) : option (Answers Request) :=
  match ev with
  | Mounted env | KeyPressed _ env | SendClicked env | PollTick env => Some env
  | Typed _ | TimeoutDue => None
  end.

(* ================================================================== *)
(** ** The routes of the relay backend *)
(* ================================================================== *)

Module Routes.

(** What [runs.retrieve] returns: the run and its [status]. *)
Record RetrievedRun : Type := {
  retrieved : Run;
  run_status : string;
}.

(** Every awaited call of the route handlers: the Assistants API, the
    transcription API, the document store (dates left out), and the calls
    of [sendMessage]. *)
Inductive Call : Type -> Type :=
| ThreadsCreate : Call string
| Relayed (R : Type) (c : Backend.Call R) : Call R
| MessagesList (threadId : string) : Call (list ThreadMessage)
| RunsRetrieve (threadId runId : string) : Call RetrievedRun
| UpdateThread (threadId : string) (messages : list ThreadMessage)
    (status : option string) (ip : string) : Call unit
| SubmitToolOutputs (threadId runId : string) (tool_outputs : list ToolOutput) : Call unit
| InsertSubmit (threadId runId : string) (outputs : list ToolOutput) (ip : string) : Call unit
| ToFile (audio name : string) : Call string
| TranscriptionsCreate (model response_format file : string) : Call string.

Arguments Relayed {R} c.

(** A call and its outcome, as it appears in a trace. *)
Inductive Logged : Type :=
| Log (R : Type) (c : Call R) (reply : outcome R).

Arguments Log {R} c reply.

Definition is_retrieve (l : Logged) : bool :=
  match l with Log (RunsRetrieve _ _) _ => true | _ => false end.


(** A handler's task resolves with what it sends as the response; a
    rejection means nothing is sent by the handler. *)
Definition Route (A : Type) : Type := Proc Call unit A.

Definition respond {A} (a : A) : Route A := Done (Resolved a) tt.

Definition await {R A} (c : Call R) (k : R -> Route A) : Route A :=
  Await c tt (fun r => match r with
                       | Resolved x => k x
                       | Rejected e => Done (Rejected e) tt
                       end).

Section Served.

Variable ASSISTANT_ID : string.

(** [POST /chat/new]: responds with [threadId]. *)
Definition chatNew : Route string :=
  await ThreadsCreate (fun thread_id => respond thread_id).

(** [POST /chat/send]: responds with [runId]. *)
Definition chatSend (threadId text clientIp : string) : Route string :=
  andThen (through Call (@Relayed) (Backend.sendMessage ASSISTANT_ID threadId text clientIp))
    (fun run _ => respond (run_id run)).

(** [POST /chat/list]: responds with [messages], [run] and [status]. *)
Definition chatList (threadId : string) (runId : option string) (clientIp : string)
  : Route ListData :=
  await (MessagesList threadId) (fun messages =>
    let finish (run : option Run) (status : option string) : Route ListData :=
      await (UpdateThread threadId messages status clientIp) (fun _ =>
        respond {| d_messages := messages; d_status := status; d_run := run |}) in
    match runId with
    | Some r =>
        if truthy runId
        then await (RunsRetrieve threadId r) (fun run =>
               finish (Some (retrieved run)) (Some (run_status run)))
        else finish None None
    | None => finish None None
    end).

(** [POST /chat/submit]: responds with status 200. *)
Definition chatSubmit (threadId runId : string) (outputs : list ToolOutput)
    (clientIp : string) : Route nat :=
  await (SubmitToolOutputs threadId runId outputs) (fun _ =>
    await (InsertSubmit threadId runId outputs clientIp) (fun _ =>
      respond 200)).

(** [POST /chat/audio]: responds with [runId]. *)
Definition chatAudio (threadId audio clientIp : string) : Route string :=
  await (ToFile audio "audio.webm") (fun file =>
    await (TranscriptionsCreate "whisper-1" "json" file) (fun text =>
      andThen (through Call (@Relayed) (Backend.sendMessage ASSISTANT_ID threadId text clientIp))
        (fun run _ => respond (run_id run)))).

End Served.

Definition exec {A} (env : Answers Call) (h : Route A) : outcome A * list Logged :=
  let '(o, _, tr) := run (@Log) env h in (o, tr).

(** The answers given to the calls of [sendMessage]. *)
Definition relayed_answers (env : Answers Call) : Answers Backend.Call :=
  fun R c => env R (Relayed c).


(** Did the call resolve? *)
Definition resolved_log (l : Logged) : bool :=
  match l with Log _ (Resolved _) => true | Log _ (Rejected _) => false end.

(** Every call but the last resolved, and the last resolved exactly when
    [responded]. *)
Fixpoint fail_fast (tr : list Logged) (responded : bool) : bool :=
  match tr with
  | [] => responded
  | [l] => Bool.eqb (resolved_log l) responded
  | l :: rest => resolved_log l && fail_fast rest responded
  end.

End Routes.

(* ================================================================== *)
(** ** More examples *)
(* ================================================================== *)

Module Scenario.

(** A remote in which everything works but the insertion of the message
    record: threads get the id ["thread_2"], runs are ["run_1"] in
    progress, uploads are transcribed as ["Show me Paris"]. *)
Definition remote : Answers Routes.Call :=
  fun R c =>
    match c in Routes.Call R return outcome R with
    | Routes.ThreadsCreate => Resolved "thread_2"
    | Routes.Relayed c' =>
        match c' in Backend.Call R return outcome R with
        | Backend.MessagesCreate _ _ _ => Resolved tt
        | Backend.RunsCreate _ _ => Resolved Example.plain
        | Backend.InsertMessage _ _ _ _ => Rejected "MongoError"
        end
    | Routes.MessagesList _ => Resolved [Example.newer; Example.older]
    | Routes.RunsRetrieve _ _ =>
        Resolved {| Routes.retrieved := Example.plain;
                    Routes.run_status := "in_progress" |}
    | Routes.UpdateThread _ _ _ _ => Resolved tt
    | Routes.SubmitToolOutputs _ _ _ => Resolved tt
    | Routes.InsertSubmit _ _ _ _ => Resolved tt
    | Routes.ToFile _ _ => Resolved "file_1"
    | Routes.TranscriptionsCreate _ _ _ => Resolved "Show me Paris"
    end.

(** A backend whose polls report the run as failed. *)
Definition failing : Answers Request :=
  Example.answering (Example.poll "failed" Example.plain).

(** A backend whose polls report the run as completed. *)
Definition completing : Answers Request :=
  Example.answering (Example.poll "completed" Example.plain).

(** A session: the user types and sends, two polls come back, the timeout
    falls due, the user presses a key. *)
Definition session : list UiEvent :=
  [ Typed "Show me Paris"; SendClicked completing; PollTick failing;
    PollTick completing; TimeoutDue; KeyPressed "Enter" Example.offline ].

(** A session in which the run fails and the user keeps trying. *)
Definition stuck : list UiEvent :=
  [ PollTick failing; Typed "Show me Rome"; SendClicked failing;
    TimeoutDue; PollTick Example.offline; KeyPressed "Enter" failing;
    PollTick failing ].

End Scenario.

(* ================================================================== *)
(** * Properties *)
(* ================================================================== *)

Section AsyncFacts.

Variables (E : Type -> Type) (S Ev : Type).
Variable log : forall R, E R -> outcome R -> Ev.
Variable env : Answers E.

(** Running [p] and then [f]: the calls of [p] come first, and a
    rejection of [p] ends the run. *)
Lemma run_andThen A B (p : Proc E S A) (f : A -> S -> Proc E S B) :
  run log env (andThen p f) =
  match run log env p with
  | (Resolved a, s, tr) =>
      let '(o, s', tr') := run log env (f a s) in (o, s', tr ++ tr')
  | (Rejected e, s, tr) => (Rejected e, s, tr)
  end.
Proof.
  induction p as [o s | R rq s k IH]; simpl.
  - destruct o as [a | e]; simpl; [| reflexivity].
    destruct (run log env (f a s)) as [[o' s'] tr']; reflexivity.
  - rewrite IH.
    destruct (run log env (k (env rq))) as [[[a | e] s'] tr]; simpl; [| reflexivity].
    destruct (run log env (f a s')) as [[o' s''] tr']; reflexivity.
Qed.

End AsyncFacts.

Lemma conversation_untouched_refl s : conversation_untouched s s.
Proof. repeat split. Qed.

Lemma conversation_untouched_trans s1 s2 s3 :
  conversation_untouched s1 s2 -> conversation_untouched s2 s3 ->
  conversation_untouched s1 s3.
Proof.
  unfold conversation_untouched.
  intros (a1 & a2 & a3 & a4 & a5 & a6) (b1 & b2 & b3 & b4 & b5 & b6).
  repeat split; congruence.
Qed.

Section Dispatch.

Context {B : Builtins}.

Lemma callChatbotFunction_frame functionName toolArgs s :
  conversation_untouched s (snd (callChatbotFunction functionName toolArgs s)).
Proof.
  unfold callChatbotFunction.
  destruct (chatbotFunctions functionName) as [[|] | |].
  - destruct (bind_updateMap toolArgs); repeat split.
  - destruct (bind_addMarker toolArgs); repeat split.
  - destruct (Object_prototype_call functionName toolArgs); repeat split.
  - repeat split.
Qed.

Lemma dispatchLoop_frame tcs : forall outputs s,
  conversation_untouched s (snd (dispatchLoop tcs outputs s)).
Proof.
  induction tcs as [| toolCall rest IH]; intros outputs s; simpl.
  - apply conversation_untouched_refl.
  - destruct (String.eqb (tc_type toolCall) "function"); [| apply IH].
    destruct (JSON_parse (fn_arguments toolCall)) as [toolArgs |];
      [| apply conversation_untouched_refl].
    pose proof (callChatbotFunction_frame (fn_name toolCall) toolArgs s) as Hc.
    destruct (callChatbotFunction (fn_name toolCall) toolArgs s) as [[out | e] s'];
      simpl in Hc; [| exact Hc].
    eapply conversation_untouched_trans; [exact Hc | apply IH].
Qed.

(** The dispatcher leaves the conversation cells alone and issues at most
    one request, the submission. *)
Lemma invokeChatbotFunctions_frame (env : Answers Request) run s :
  conversation_untouched s (store (runTask env (invokeChatbotFunctions run s))) /\
  (calls (runTask env (invokeChatbotFunctions run s)) = [] \/
   exists outputs reply,
     calls (runTask env (invokeChatbotFunctions run s))
       = [WSubmit (threadId s) (runId s) outputs reply]).
Proof.
  unfold invokeChatbotFunctions.
  destruct run as [run |]; [| split; [apply conversation_untouched_refl | now left]].
  destruct (required_action run) as [ra |];
    [| split; [apply conversation_untouched_refl | now left]].
  destruct (String.eqb (ra_type ra) "submit_tool_outputs");
    [| split; [apply conversation_untouched_refl | now left]].
  pose proof (dispatchLoop_frame (tool_calls ra) [] s) as Hf.
  destruct (dispatchLoop (tool_calls ra) [] s) as [[outputs | e] s']; simpl in Hf.
  - destruct Hf as (Ht & Hr & Hrest).
    unfold runTask, store, calls; simpl.
    rewrite Ht, Hr.
    destruct (env _ (PostChatSubmit (threadId s) (runId s) outputs)) as [[] | e] eqn:He;
      simpl; (split; [repeat split; tauto | right; eauto]).
  - split; [exact Hf | now left].
Qed.

(** A poll, step by step: the list request, the log replaced by the
    reversed snapshot, the dispatcher when the status asks for it, and
    the timeout that will clear the run when the status is
    ["completed"]. *)
Lemma updateMessages_run (env : Answers Request) s data :
  env _ (PostChatList (threadId s) (runId s)) = Resolved data ->
  runTask env (updateMessages s) =
  let s1 := setMessages (rev (d_messages data)) s in
  let '(o, s2, tr) :=
    if status_is data "requires_action"
    then runTask env (invokeChatbotFunctions (d_run data) s1)
    else (Resolved tt, s1, []) in
  match o with
  | Resolved _ =>
      (Resolved tt,
       if truthy (runId s) && status_is data "completed"
       then setTimeout ClearRunId 5000 s2 else s2,
       WList (threadId s) (runId s) (Resolved data) :: tr)
  | Rejected e =>
      (Rejected e, s2, WList (threadId s) (runId s) (Resolved data) :: tr)
  end.
Proof.
  intros Henv. unfold updateMessages, runTask. simpl. rewrite Henv.
  rewrite run_andThen.
  destruct (status_is data "requires_action"); simpl.
  - destruct (run (@wire) env (invokeChatbotFunctions (d_run data) _))
      as [[[[] | e] s2] tr]; [| reflexivity].
    destruct (truthy (runId s)), (status_is data "completed");
      simpl; rewrite app_nil_r; reflexivity.
  - destruct (truthy (runId s)), (status_is data "completed"); reflexivity.
Qed.

Lemma updateMessages_offline (env : Answers Request) s e :
  env _ (PostChatList (threadId s) (runId s)) = Rejected e ->
  runTask env (updateMessages s)
    = (Rejected e, s, [WList (threadId s) (runId s) (Rejected e)]).
Proof.
  intros Henv. unfold updateMessages, runTask. simpl. rewrite Henv. reflexivity.
Qed.

(** A poll leaves the thread id, the run id, the input text and the
    stored id alone; it issues the list request first and never asks
    for a new conversation. *)
Lemma updateMessages_frame (env : Answers Request) s :
  threadId (store (runTask env (updateMessages s))) = threadId s /\
  runId (store (runTask env (updateMessages s))) = runId s /\
  message (store (runTask env (updateMessages s))) = message s /\
  localStorage (store (runTask env (updateMessages s))) = localStorage s /\
  existsb is_new (calls (runTask env (updateMessages s))) = false /\
  hd_error (calls (runTask env (updateMessages s)))
    = Some (WList (threadId s) (runId s) (env _ (PostChatList (threadId s) (runId s)))).
Proof.
  destruct (env _ (PostChatList (threadId s) (runId s))) as [data | e] eqn:Henv.
  2: { rewrite (updateMessages_offline _ _ Henv). repeat split. }
  rewrite (updateMessages_run _ _ Henv). cbv zeta.
  set (s1 := setMessages (rev (d_messages data)) s).
  destruct (status_is data "requires_action").
  - destruct (invokeChatbotFunctions_frame env (d_run data) s1) as [Hf Hc].
    unfold store, calls in *.
    destruct (runTask env (invokeChatbotFunctions (d_run data) s1))
      as [[o s2] tr]; simpl in Hf, Hc.
    destruct Hf as (Ht & Hr & _ & Hm & Hl & _).
    assert (Hn : existsb is_new tr = false)
      by (destruct Hc as [-> | (outputs & reply & ->)]; reflexivity).
    destruct o as [[] | e]; simpl.
    + destruct (truthy (runId s) && status_is data "completed");
        simpl; repeat split; assumption.
    + repeat split; assumption.
  - simpl. destruct (truthy (runId s) && status_is data "completed");
      repeat split.
Qed.

(** Only the status ["completed"] registers the timeout that clears the
    run; under any other status a poll leaves the timeouts as they were. *)
Lemma updateMessages_clears_only_completed (env : Answers Request) s data :
  env _ (PostChatList (threadId s) (runId s)) = Resolved data ->
  status_is data "completed" = false ->
  timeouts (store (runTask env (updateMessages s))) = timeouts s /\
  runId (store (runTask env (updateMessages s))) = runId s.
Proof.
  intros Henv Hst. rewrite (updateMessages_run _ _ Henv). cbv zeta.
  rewrite Hst, andb_false_r.
  destruct (status_is data "requires_action"); [| split; reflexivity].
  destruct (invokeChatbotFunctions_frame env (d_run data)
              (setMessages (rev (d_messages data)) s)) as [Hf _].
  unfold store in *.
  destruct (runTask env (invokeChatbotFunctions (d_run data) _))
    as [[[[] | e] s2] tr]; simpl in Hf; destruct Hf as (_ & Hr & _ & _ & _ & Ht);
    split; assumption.
Qed.

End Dispatch.

Section HandlerCalls.

Context {B : Builtins}.

(** C9 (as amended): called with any arguments that can be destructured
    (anything but [null] and [undefined]), [updateMap] returns
    ["Map updated"] and writes the map centre and zoom only, and
    [addMarker] returns ["Marker added"] and writes the marker only;
    called with [null] or [undefined], either handler throws a
    [TypeError] while binding its parameter, before anything is written.
    In no case are the thread id, the run id or the message log (or the
    input text, the stored id, the timeouts) modified, and neither
    handler issues a remote call: whatever batch is dispatched from
    whatever store, the only request that can appear on the wire is the
    submission the dispatcher posts after the loop. *)
Theorem handlers_touch_only_the_map (toolArgs : jsval) (s : State) :
  (destructurable toolArgs = true ->
     fst (callChatbotFunction "updateMap" toolArgs s) = Resolved (JStr "Map updated") /\
     mapCenter (snd (callChatbotFunction "updateMap" toolArgs s))
       = {| latitude := own_prop "latitude" toolArgs;
            longitude := own_prop "longitude" toolArgs |} /\
     mapZoom (snd (callChatbotFunction "updateMap" toolArgs s))
       = own_prop "zoom" toolArgs /\
     fst (callChatbotFunction "addMarker" toolArgs s) = Resolved (JStr "Marker added") /\
     mapMarker (snd (callChatbotFunction "addMarker" toolArgs s))
       = Some {| marker_latitude := own_prop "latitude" toolArgs;
                 marker_longitude := own_prop "longitude" toolArgs;
                 marker_label := own_prop "label" toolArgs |}) /\
  (destructurable toolArgs = false ->
     callChatbotFunction "updateMap" toolArgs s = (Rejected TypeError, s) /\
     callChatbotFunction "addMarker" toolArgs s = (Rejected TypeError, s)) /\
  (conversation_untouched s (snd (callChatbotFunction "updateMap" toolArgs s)) /\
   mapMarker (snd (callChatbotFunction "updateMap" toolArgs s)) = mapMarker s) /\
  (conversation_untouched s (snd (callChatbotFunction "addMarker" toolArgs s)) /\
   mapCenter (snd (callChatbotFunction "addMarker" toolArgs s)) = mapCenter s /\
   mapZoom (snd (callChatbotFunction "addMarker" toolArgs s)) = mapZoom s) /\
  (forall (a : UpdateMapArgs),
     fst (updateMap a s) = "Map updated" /\
     conversation_untouched s (snd (updateMap a s)) /\
     mapMarker (snd (updateMap a s)) = mapMarker s) /\
  (forall (a : AddMarkerArgs),
     fst (addMarker a s) = "Marker added" /\
     conversation_untouched s (snd (addMarker a s)) /\
     mapCenter (snd (addMarker a s)) = mapCenter s /\
     mapZoom (snd (addMarker a s)) = mapZoom s) /\
  (forall (env : Answers Request) (run : option Run),
     calls (runTask env (invokeChatbotFunctions run s)) = [] \/
     exists outputs reply,
       calls (runTask env (invokeChatbotFunctions run s))
         = [WSubmit (threadId s) (runId s) outputs reply]).
Proof.
  assert (Hum : chatbotFunctions "updateMap" = Own HUpdateMap) by reflexivity.
  assert (Ham : chatbotFunctions "addMarker" = Own HAddMarker) by reflexivity.
  unfold callChatbotFunction. rewrite Hum, Ham.
  unfold bind_updateMap, bind_addMarker.
  split; [| split; [| split; [| split; [| split; [| split]]]]].
  - intros Hd. rewrite Hd. repeat split.
  - intros Hd. rewrite Hd. split; reflexivity.
  - destruct (destructurable toolArgs); repeat split.
  - destruct (destructurable toolArgs); repeat split.
  - intros a. repeat split.
  - intros a. repeat split.
  - intros env run. apply invokeChatbotFunctions_frame.
Qed.

End HandlerCalls.

Lemma handlers_touch_only_the_map_witness :
  fst (callChatbotFunction (B := Example.browser) "updateMap" Example.paris
         (Example.mounted (Some "run_1")))
    = Resolved (JStr "Map updated") /\
  callChatbotFunction (B := Example.browser) "updateMap" JNull
    (Example.mounted (Some "run_1"))
    = (Rejected TypeError, Example.mounted (Some "run_1")).
Proof.
  split.
  - exact (proj1 (proj1 (handlers_touch_only_the_map (B := Example.browser)
                           Example.paris (Example.mounted (Some "run_1")))
                    eq_refl)).
  - exact (proj1 (proj1 (proj2 (handlers_touch_only_the_map (B := Example.browser)
                                  JNull (Example.mounted (Some "run_1"))))
                    eq_refl)).
Defined.

(** The same through the dispatcher: a call to [updateMap] whose arguments
    text is [null] ends the dispatch with the [TypeError]; the map is
    untouched and nothing is submitted. *)
Example updateMap_null_arguments :
  runTask Example.offline
    (invokeChatbotFunctions (B := Example.browser)
       (Some (Example.pending
                [ {| tc_id := "call_7"; tc_type := "function";
                     fn_name := "updateMap"; fn_arguments := "null" |} ]))
       (Example.mounted (Some "run_1")))
  = (Rejected TypeError, Example.mounted (Some "run_1"), []).
Proof. reflexivity. Qed.

(** The claim of C9 as the design states it fails: called with [null],
    which is what [JSON.parse] makes of the arguments text [null],
    [updateMap] does not return its string; it throws. *)
Lemma updateMap_throws_on_null :
  ~ (forall (B : Builtins) (toolArgs : jsval) (s : State),
       fst (callChatbotFunction "updateMap" toolArgs s) = Resolved (JStr "Map updated")).
Proof.
  intros H.
  specialize (H Example.browser JNull (Example.mounted (Some "run_1"))).
  discriminate H.
Qed.

Section Turns.

Context {B : Builtins}.

(** C1 (as amended): while [runId] is set, [sendMessage] returns at once:
    its promise resolves (no error reaches the caller), no request is
    issued and the store is unchanged.  When the component is idle and
    the backend answers the send with a run id, a first call posts the
    message and records the run, and a second call made on the resulting
    store, before any status has cleared the run, is the silent no-op
    just described: of the two calls exactly one reaches the backend. *)
Theorem sendMessage_ignored_while_running
    (env : Answers Request) (text : string) (s : State) :
  (forall r, runId s = Some r ->
     runTask env (sendMessage text s) = (Resolved tt, s, [])) /\
  (forall newRun (env2 : Answers Request) text2,
     runId s = None ->
     env _ (PostChatSend (threadId s) text) = Resolved newRun ->
     runTask env (sendMessage text s)
       = (Resolved tt, setRunId (Some newRun) s,
          [WSend (threadId s) text (Resolved newRun)]) /\
     runTask env2 (sendMessage text2 (store (runTask env (sendMessage text s))))
       = (Resolved tt, setRunId (Some newRun) s, [])).
Proof.
  split.
  - intros r Hr. unfold sendMessage. rewrite Hr. reflexivity.
  - intros newRun env2 text2 Hidle Henv.
    assert (H1 : runTask env (sendMessage text s)
                 = (Resolved tt, setRunId (Some newRun) s,
                    [WSend (threadId s) text (Resolved newRun)])).
    { unfold sendMessage, runTask. rewrite Hidle. simpl. rewrite Henv. reflexivity. }
    split; [exact H1 |].
    rewrite H1. reflexivity.
Qed.

(** C10: [onSendMessage] empties the input before the send is awaited:
    whatever the environment answers, the input is empty when the task
    settles; on an idle component the task is suspended on the send of
    the trimmed text with the input already empty; and when that send
    fails, the task rejects with the transport's error, the store being
    the original one with the input emptied, so the text is gone and no
    run was recorded. *)
Theorem onSendMessage_clears_input_first (env : Answers Request) (s : State) :
  message (store (runTask env (onSendMessage s))) = "" /\
  (runId s = None ->
     suspended_store (onSendMessage s) = Some (setMessage "" s) /\
     forall e,
       env _ (PostChatSend (threadId s) (String_trim (message s))) = Rejected e ->
       runTask env (onSendMessage s)
         = (Rejected e, setMessage "" s,
            [WSend (threadId s) (String_trim (message s)) (Rejected e)])).
Proof.
  unfold onSendMessage, sendMessage. simpl.
  destruct (runId s) as [r |] eqn:Hr.
  - split; [reflexivity | discriminate].
  - split.
    + unfold runTask, store. simpl.
      destruct (env _ (PostChatSend (threadId s) (String_trim (message s))));
        reflexivity.
    + intros _. split; [reflexivity |].
      intros e He. unfold runTask. simpl. rewrite He. reflexivity.
Qed.

(** C2 (as amended): a poll answered with status ["requires_action"]
    runs the dispatcher itself: after the log is replaced, the poll
    settles as [invokeChatbotFunctions] does on the run it received,
    with the store and the requests of that dispatch.  A poll answered
    with any other status executes no handler and submits nothing. *)
Theorem updateMessages_dispatches (env : Answers Request) (s : State) (data : ListData) :
  env _ (PostChatList (threadId s) (runId s)) = Resolved data ->
  (status_is data "requires_action" = true ->
     runTask env (updateMessages s) =
     let '(o, s2, tr) :=
       runTask env (invokeChatbotFunctions (d_run data)
                      (setMessages (rev (d_messages data)) s)) in
     (o, s2, WList (threadId s) (runId s) (Resolved data) :: tr)) /\
  (status_is data "requires_action" = false ->
     map_untouched s (store (runTask env (updateMessages s))) /\
     existsb is_submit (calls (runTask env (updateMessages s))) = false).
Proof.
  intros Henv. rewrite (updateMessages_run _ _ Henv). cbv zeta. split; intros Hst.
  - rewrite Hst.
    assert (Hc : status_is data "completed" = false).
    { unfold status_is in *. destruct (d_status data) as [status |]; [| reflexivity].
      apply String.eqb_eq in Hst. subst status. reflexivity. }
    rewrite Hc, andb_false_r.
    destruct (runTask env (invokeChatbotFunctions (d_run data) _))
      as [[[[] | e] s2] tr]; reflexivity.
  - rewrite Hst.
    destruct (truthy (runId s) && status_is data "completed"); repeat split.
Qed.

End Turns.

Lemma sendMessage_ignored_while_running_witness :
  runTask Example.offline
    (sendMessage "Show me Rome" (Example.mounted (Some "run_1")))
  = (Resolved tt, Example.mounted (Some "run_1"), []) /\
  runTask Example.offline
    (sendMessage "Show me Rome"
       (store (runTask (Example.answering (Example.poll "queued" Example.plain))
                 (sendMessage "Show me Paris" (Example.mounted None)))))
  = (Resolved tt, Example.mounted (Some "run_1"), []).
Proof.
  split.
  - exact (proj1 (sendMessage_ignored_while_running Example.offline "Show me Rome"
                    (Example.mounted (Some "run_1"))) "run_1" eq_refl).
  - exact (proj2 (proj2 (sendMessage_ignored_while_running
                           (Example.answering (Example.poll "queued" Example.plain))
                           "Show me Paris" (Example.mounted None))
                    "run_1" Example.offline "Show me Rome" eq_refl eq_refl)).
Defined.

(** The claim of C1 as the design states it fails: with a run active the
    promise of [sendMessage] resolves; it is not rejected with the
    conflict error. *)
Lemma sendMessage_no_ConflictError :
  ~ (forall (env : Answers Request) (text : string) (s : State) (r : string),
       runId s = Some r ->
       settled (runTask env (sendMessage text s)) = Rejected ConflictError).
Proof.
  intros H.
  specialize (H Example.offline "Show me Rome" (Example.mounted (Some "run_1"))
                "run_1" eq_refl).
  discriminate H.
Qed.

(** The guard reads [runId], which is written only when the send has
    resolved: a call made while an earlier send is still awaited finds the
    component idle and posts a second message. *)
Example sendMessage_overlapping_calls :
  suspended_store (sendMessage "Show me Paris" (Example.mounted None))
    = Some (Example.mounted None) /\
  calls (runTask (Example.answering (Example.poll "queued" Example.plain))
           (sendMessage "Show me Rome" (Example.mounted None)))
    = [WSend (Some "thread_1") "Show me Rome" (Resolved "run_1")].
Proof. split; reflexivity. Qed.

Lemma onSendMessage_clears_input_first_witness :
  runTask Example.offline
    (onSendMessage (B := Example.browser)
       (setMessage "  Show me Paris " (Example.mounted None)))
  = (Rejected "AxiosError", Example.mounted None,
     [WSend (Some "thread_1") "Show me Paris" (Rejected "AxiosError")]).
Proof.
  exact (proj2 (proj2 (onSendMessage_clears_input_first (B := Example.browser)
                         Example.offline
                         (setMessage "  Show me Paris " (Example.mounted None)))
                  eq_refl)
           "AxiosError" eq_refl).
Defined.

Lemma updateMessages_dispatches_witness :
  runTask (Example.answering
             (Example.poll "requires_action" (Example.pending [Example.updateMapCall])))
    (updateMessages (B := Example.browser) (Example.mounted (Some "run_1")))
  = (Resolved tt,
     setMapZoom (JNum 12 0)
       (setMapCenter {| latitude := JNum 4885 (-2); longitude := JNum 235 (-2) |}
          (setMessages [Example.older; Example.newer] (Example.mounted (Some "run_1")))),
     [ WList (Some "thread_1") (Some "run_1")
         (Resolved (Example.poll "requires_action"
                      (Example.pending [Example.updateMapCall])));
       WSubmit (Some "thread_1") (Some "run_1")
         [ {| tool_call_id := "call_1"; output := JStr "Map updated" |} ]
         (Resolved tt) ]).
Proof.
  exact (proj1 (updateMessages_dispatches (B := Example.browser)
                  (Example.answering
                     (Example.poll "requires_action"
                        (Example.pending [Example.updateMapCall])))
                  (Example.mounted (Some "run_1")) eq_refl)
           eq_refl).
Defined.

(** The claim of C2 as the design states it fails: a poll answered with
    ["requires_action"] has run a handler (the map has moved) and has
    posted the outputs. *)
Lemma updateMessages_does_dispatch :
  ~ (forall (B : Builtins) (env : Answers Request) (s : State) (data : ListData),
       env _ (PostChatList (threadId s) (runId s)) = Resolved data ->
       status_is data "requires_action" = true ->
       map_untouched s (store (runTask env (updateMessages s))) /\
       existsb is_submit (calls (runTask env (updateMessages s))) = false).
Proof.
  intros H.
  destruct (H Example.browser
              (Example.answering
                 (Example.poll "requires_action"
                    (Example.pending [Example.updateMapCall])))
              (Example.mounted (Some "run_1")) _ eq_refl eq_refl) as [_ Hsub].
  discriminate Hsub.
Qed.

Section ToolBatches.

Context {B : Builtins}.

(** The loop throws nothing but the two built-in errors. *)
Lemma dispatchLoop_errors tcs : forall outputs s e s',
  dispatchLoop tcs outputs s = (Rejected e, s') ->
  e = TypeError \/ e = SyntaxError.
Proof.
  induction tcs as [| toolCall rest IH]; intros outputs s e s'; simpl.
  - discriminate.
  - destruct (String.eqb (tc_type toolCall) "function"); [| apply IH].
    destruct (JSON_parse (fn_arguments toolCall)) as [toolArgs |].
    2: { intros H; inversion H; now right. }
    unfold callChatbotFunction.
    destruct (chatbotFunctions (fn_name toolCall)) as [[|] | |].
    + unfold bind_updateMap. destruct (destructurable toolArgs); simpl.
      * apply IH.
      * intros H; inversion H; now left.
    + unfold bind_addMarker. destruct (destructurable toolArgs); simpl.
      * apply IH.
      * intros H; inversion H; now left.
    + destruct (Object_prototype_call (fn_name toolCall) toolArgs).
      * apply IH.
      * intros H; inversion H; now left.
    + intros H; inversion H; now left.
Qed.

(** A function call whose name resolves to nothing makes the loop throw. *)
Lemma dispatchLoop_missing tcs : forall outputs s,
  (exists toolCall, In toolCall tcs /\ tc_type toolCall = "function" /\
                    chatbotFunctions (fn_name toolCall) = Missing) ->
  exists e s', dispatchLoop tcs outputs s = (Rejected e, s').
Proof.
  induction tcs as [| toolCall rest IH]; intros outputs s (bad & Hin & Hty & Hfn).
  - destruct Hin.
  - simpl.
    assert (Hrest : tc_type toolCall <> "function" \/ bad <> toolCall ->
                    bad = toolCall \/ In bad rest -> In bad rest).
    { intros [Hne | Hne] [Heq | Hr]; try assumption; subst; congruence. }
    destruct (String.eqb (tc_type toolCall) "function") eqn:Hf.
    + destruct (JSON_parse (fn_arguments toolCall)) as [toolArgs |]; [| eauto].
      destruct Hin as [Heq | Hr].
      * subst bad. unfold callChatbotFunction. rewrite Hfn. eauto.
      * destruct (callChatbotFunction (fn_name toolCall) toolArgs s) as [[out | e] s1];
          [| eauto].
        apply IH. eauto.
    + apply IH. exists bad. split; [| split; assumption].
      destruct Hin as [Heq | Hr]; [| exact Hr].
      subst bad. rewrite Hty in Hf. discriminate.
Qed.

(** C3 (as amended): when some function call of the batch names a
    function that the registry object does not resolve, the dispatch
    fails by the dynamic lookup itself: the loop throws a built-in error
    (the [TypeError] of calling [undefined], unless an earlier failure,
    a [SyntaxError] of [JSON.parse] or another [TypeError], comes
    first), the dispatcher's promise rejects with it, never with
    [UnknownFunctionError], and nothing is submitted.  When the batch is
    that call alone and its arguments parse, the error is the
    [TypeError] and the store is untouched. *)
Theorem unknown_function_fails_by_lookup
    (env : Answers Request) (s : State) (run : Run) (ra : RequiredAction) :
  required_action run = Some ra ->
  ra_type ra = "submit_tool_outputs" ->
  (exists toolCall, In toolCall (tool_calls ra) /\ tc_type toolCall = "function" /\
                    chatbotFunctions (fn_name toolCall) = Missing) ->
  (exists e s',
      runTask env (invokeChatbotFunctions (Some run) s) = (Rejected e, s', []) /\
      (e = TypeError \/ e = SyntaxError) /\
      e <> UnknownFunctionError /\
      conversation_untouched s s') /\
  (forall toolCall toolArgs,
      tool_calls ra = [toolCall] ->
      JSON_parse (fn_arguments toolCall) = Some toolArgs ->
      runTask env (invokeChatbotFunctions (Some run) s) = (Rejected TypeError, s, [])).
Proof.
  intros Hra Hty Hbad. unfold invokeChatbotFunctions. rewrite Hra, Hty. simpl.
  split.
  - destruct (dispatchLoop_missing _ [] s Hbad) as (e & s' & Hloop).
    pose proof (dispatchLoop_frame (tool_calls ra) [] s) as Hf.
    rewrite Hloop in *. simpl in Hf.
    exists e, s'. split; [reflexivity |].
    destruct (dispatchLoop_errors _ _ _ Hloop) as [-> | ->];
      (split; [tauto | split; [discriminate | exact Hf]]).
  - intros toolCall toolArgs Hone Hparse.
    rewrite Hone in *. destruct Hbad as (bad & [<- | []] & Hfun & Hmiss).
    simpl. rewrite Hfun. simpl. rewrite Hparse.
    unfold callChatbotFunction. rewrite Hmiss. reflexivity.
Qed.

Lemma dispatchLoop_ids tcs : forall outputs s outs s',
  dispatchLoop tcs outputs s = (Resolved outs, s') ->
  map tool_call_id outs
    = map tool_call_id outputs ++ map tc_id (filter is_function_call tcs).
Proof.
  induction tcs as [| toolCall rest IH]; intros outputs s outs s'; simpl.
  - intros H; inversion H; subst. now rewrite app_nil_r.
  - unfold is_function_call at 1.
    destruct (String.eqb (tc_type toolCall) "function"); [| apply IH].
    destruct (JSON_parse (fn_arguments toolCall)) as [toolArgs |]; [| discriminate].
    destruct (callChatbotFunction (fn_name toolCall) toolArgs s) as [[out | e] s1];
      [| discriminate].
    intros H. rewrite (IH _ _ _ _ H), map_app, <- app_assoc. reflexivity.
Qed.

Lemma dispatchLoop_completes tcs : forall outputs s,
  forallb dispatchable tcs = true ->
  exists outs s', dispatchLoop tcs outputs s = (Resolved outs, s').
Proof.
  induction tcs as [| toolCall rest IH]; intros outputs s Hall; simpl.
  - eauto.
  - simpl in Hall. apply andb_true_iff in Hall as [Hd Hall].
    unfold dispatchable in Hd. apply andb_true_iff in Hd as [Hty Hd].
    rewrite Hty.
    destruct (JSON_parse (fn_arguments toolCall)) as [toolArgs |]; [| discriminate].
    unfold callChatbotFunction.
    destruct (chatbotFunctions (fn_name toolCall)) as [[|] | |].
    + unfold bind_updateMap. rewrite Hd. simpl. apply IH, Hall.
    + unfold bind_addMarker. rewrite Hd. simpl. apply IH, Hall.
    + destruct (Object_prototype_call (fn_name toolCall) toolArgs); [| discriminate].
      apply IH, Hall.
    + discriminate.
Qed.

Lemma dispatchable_is_function tcs :
  forallb dispatchable tcs = true -> filter is_function_call tcs = tcs.
Proof.
  induction tcs as [| toolCall rest IH]; simpl; [reflexivity |].
  intros Hall. apply andb_true_iff in Hall as [Hd Hall].
  unfold dispatchable in Hd. apply andb_true_iff in Hd as [Hty _].
  unfold is_function_call at 1. rewrite Hty, (IH Hall). reflexivity.
Qed.

Lemma dispatchable_permuted tcs tcs' :
  Permutation tcs tcs' ->
  forallb dispatchable tcs = true -> forallb dispatchable tcs' = true.
Proof.
  intros Hp Hall. apply forallb_forall. intros x Hx.
  eapply forallb_forall in Hall; [exact Hall |].
  eapply Permutation_in; [apply Permutation_sym, Hp | exact Hx].
Qed.

(** C4 (as amended): the dispatch yields one result per pending call of
    type ["function"], in the order of the calls and under their ids;
    calls of any other type are passed over.  When every pending call is
    a function call whose arguments parse and whose name resolves to
    something that returns, the loop completes with exactly as many
    results as there are calls, under the same ids, these are what the
    dispatcher submits, and processing the batch in any other order
    yields the same ids up to order. *)
Theorem dispatch_answers_function_calls (tcs : list ToolCall) (s : State) :
  (forall outs s',
      dispatchLoop tcs [] s = (Resolved outs, s') ->
      map tool_call_id outs = map tc_id (filter is_function_call tcs)) /\
  (forallb dispatchable tcs = true ->
     (exists outs s',
         dispatchLoop tcs [] s = (Resolved outs, s') /\
         length outs = length tcs /\
         map tool_call_id outs = map tc_id tcs /\
         forall (env : Answers Request) run,
           required_action run
             = Some {| ra_type := "submit_tool_outputs"; tool_calls := tcs |} ->
           calls (runTask env (invokeChatbotFunctions (Some run) s))
             = [WSubmit (threadId s) (runId s) outs
                  (env _ (PostChatSubmit (threadId s) (runId s) outs))]) /\
     (forall tcs', Permutation tcs tcs' ->
         exists outs' s'',
           dispatchLoop tcs' [] s = (Resolved outs', s'') /\
           Permutation (map tool_call_id outs') (map tc_id tcs))).
Proof.
  split; [| intros Hall; split].
  - intros outs s' H. apply (dispatchLoop_ids _ _ _ H).
  - destruct (dispatchLoop_completes _ [] s Hall) as (outs & s' & Hloop).
    exists outs, s'. split; [exact Hloop |].
    pose proof (dispatchLoop_ids _ _ _ Hloop) as Hids. simpl in Hids.
    rewrite (dispatchable_is_function _ Hall) in Hids.
    split; [| split; [exact Hids |]].
    + rewrite <- (length_map tool_call_id), Hids. apply length_map.
    + intros env run Hra. unfold invokeChatbotFunctions. rewrite Hra. simpl.
      pose proof (dispatchLoop_frame tcs [] s) as Hf.
      rewrite Hloop in *. simpl in Hf. destruct Hf as (Ht & Hr & _).
      unfold runTask, calls. simpl. rewrite Ht, Hr.
      destruct (env _ (PostChatSubmit (threadId s) (runId s) outs)) as [[] | e];
        reflexivity.
  - intros tcs' Hp.
    pose proof (dispatchable_permuted Hp Hall) as Hall'.
    destruct (dispatchLoop_completes _ [] s Hall') as (outs' & s'' & Hloop).
    exists outs', s''. split; [exact Hloop |].
    pose proof (dispatchLoop_ids _ _ _ Hloop) as Hids. simpl in Hids.
    rewrite (dispatchable_is_function _ Hall') in Hids. rewrite Hids.
    apply Permutation_map, Permutation_sym, Hp.
Qed.

End ToolBatches.

Lemma unknown_function_fails_by_lookup_witness :
  runTask (Example.answering
             (Example.poll "requires_action" (Example.pending [Example.unknownCall])))
    (invokeChatbotFunctions (B := Example.browser)
       (Some (Example.pending [Example.unknownCall]))
       (Example.mounted (Some "run_1")))
  = (Rejected TypeError, Example.mounted (Some "run_1"), []).
Proof.
  refine (proj2 (unknown_function_fails_by_lookup (B := Example.browser)
                   (Example.answering
                      (Example.poll "requires_action"
                         (Example.pending [Example.unknownCall])))
                   (Example.mounted (Some "run_1"))
                   (Example.pending [Example.unknownCall])
                   eq_refl eq_refl _)
            Example.unknownCall (JObj []) eq_refl eq_refl).
  exists Example.unknownCall. repeat split. now left.
Defined.

(** The claim of C3 as the design states it fails: the rejection carries
    the [TypeError] of the failed call, not [UnknownFunctionError]. *)
Lemma unknown_function_no_UnknownFunctionError :
  ~ (forall (B : Builtins) (env : Answers Request) (s : State) (run : Run)
            (ra : RequiredAction),
       required_action run = Some ra ->
       ra_type ra = "submit_tool_outputs" ->
       (exists toolCall, In toolCall (tool_calls ra) /\ tc_type toolCall = "function" /\
                         chatbotFunctions (fn_name toolCall) = Missing) ->
       settled (runTask env (invokeChatbotFunctions (Some run) s))
         = Rejected UnknownFunctionError).
Proof.
  intros H.
  assert (Hbad : exists toolCall,
             In toolCall [Example.unknownCall] /\ tc_type toolCall = "function" /\
             chatbotFunctions (fn_name toolCall) = Missing).
  { exists Example.unknownCall. repeat split. now left. }
  specialize (H Example.browser
                (Example.answering
                   (Example.poll "requires_action"
                      (Example.pending [Example.unknownCall])))
                (Example.mounted (Some "run_1"))
                (Example.pending [Example.unknownCall]) _ eq_refl eq_refl Hbad).
  discriminate H.
Qed.

(** A name found on [Object.prototype] is resolved and called like a
    handler: no error, and what the built-in returns is submitted. *)
Example inherited_member_is_called :
  runTask (Example.answering
             (Example.poll "requires_action" (Example.pending [Example.toStringCall])))
    (invokeChatbotFunctions (B := Example.browser)
       (Some (Example.pending [Example.toStringCall]))
       (Example.mounted (Some "run_1")))
  = (Resolved tt, Example.mounted (Some "run_1"),
     [ WSubmit (Some "thread_1") (Some "run_1")
         [ {| tool_call_id := "call_5"; output := JStr "[object Object]" |} ]
         (Resolved tt) ]).
Proof. reflexivity. Qed.

Lemma dispatch_answers_function_calls_witness :
  exists outs s',
    dispatchLoop (B := Example.browser)
      [Example.updateMapCall; Example.addMarkerCall] [] (Example.mounted (Some "run_1"))
      = (Resolved outs, s') /\
    length outs = 2 /\
    map tool_call_id outs = ["call_1"; "call_4"].
Proof.
  destruct (proj1 (proj2 (dispatch_answers_function_calls (B := Example.browser)
                            [Example.updateMapCall; Example.addMarkerCall]
                            (Example.mounted (Some "run_1")))
                     eq_refl))
    as (outs & s' & Hloop & Hlen & Hids & _).
  exists outs, s'. repeat split; assumption.
Defined.

(** The claim of C4 as the design states it fails: a batch of one pending
    call whose type is not ["function"] is dispatched and submitted with
    no result at all. *)
Lemma dispatch_skips_other_calls :
  ~ (forall (B : Builtins) (env : Answers Request) (s : State) (run : Run)
            (tcs : list ToolCall),
       required_action run
         = Some {| ra_type := "submit_tool_outputs"; tool_calls := tcs |} ->
       exists outs reply,
         calls (runTask env (invokeChatbotFunctions (Some run) s))
           = [WSubmit (threadId s) (runId s) outs reply] /\
         length outs = length tcs /\
         (forall id, In id (map tool_call_id outs) <-> In id (map tc_id tcs))).
Proof.
  intros H.
  destruct (H Example.browser
              (Example.answering
                 (Example.poll "requires_action"
                    (Example.pending [Example.retrievalCall])))
              (Example.mounted (Some "run_1"))
              (Example.pending [Example.retrievalCall])
              [Example.retrievalCall] eq_refl)
    as (outs & reply & Hcalls & Hlen & _).
  vm_compute in Hcalls. inversion Hcalls; subst outs. discriminate Hlen.
Qed.

(** C5: at a poll answered with status ["failed"] while run ["run_1"] is
    active, the poll's promise resolves (nothing reports the failure), the
    run id stays set and no timeout is registered that would clear it: the
    input stays disabled, polling goes on, and a further [sendMessage] is
    the silent no-op.  The same poll answered with ["completed"] registers
    the 5000 ms timeout whose callback clears the run. *)
Theorem failed_run_is_never_cleared :
  let failed :=
    runTask (Example.answering (Example.poll "failed" Example.plain))
      (updateMessages (B := Example.browser) (Example.mounted (Some "run_1"))) in
  let completed :=
    runTask (Example.answering (Example.poll "completed" Example.plain))
      (updateMessages (B := Example.browser) (Example.mounted (Some "run_1"))) in
  settled failed = Resolved tt /\
  runId (store failed) = Some "run_1" /\
  timeouts (store failed) = [] /\
  inputDisabled (store failed) = true /\
  pollingActive (store failed) = true /\
  calls (runTask Example.offline
           (sendMessage "Show me Rome" (store failed))) = [] /\
  timeouts (store completed) = [(5000, ClearRunId)] /\
  runId (runTimer ClearRunId (store completed)) = None.
Proof. vm_compute. repeat split. Qed.

Section Conversation.

Context {B : Builtins}.

(** Restoring a stored, non-empty id: the id becomes the current one, one
    poll is made for it, and no new conversation is requested. *)
Lemma createThread_restores (env : Answers Request) (s : State) (t : string) :
  threadId s = None -> localStorage s = Some t -> t <> "" ->
  threadId (store (runTask env (createThread s))) = Some t /\
  localStorage (store (runTask env (createThread s))) = Some t /\
  runId (store (runTask env (createThread s))) = runId s /\
  existsb is_new (calls (runTask env (createThread s))) = false /\
  hd_error (calls (runTask env (createThread s)))
    = Some (WList (Some t) (runId s) (env _ (PostChatList (Some t) (runId s)))).
Proof.
  intros Hth Hls Hne.
  unfold createThread. rewrite Hth, Hls. simpl truthy.
  apply String.eqb_neq in Hne. rewrite Hne. simpl negb. cbv iota.
  unfold runTask. rewrite run_andThen.
  set (s0 := set_threadId (Some t) s).
  destruct (updateMessages_frame env s0) as (Ht & Hr & _ & Hl & Hn & Hh).
  change (threadId s0) with (Some t) in *.
  change (runId s0) with (runId s) in *.
  change (localStorage s0) with (localStorage s) in *.
  rewrite Hls in Hl.
  unfold runTask, store, calls in *.
  destruct (run (@wire) env (updateMessages s0)) as [[[[] | e] s1] tr];
    cbn [fst snd] in *.
  - rewrite Ht. simpl. rewrite app_nil_r. repeat split; assumption.
  - repeat split; assumption.
Qed.

(** C6 (as amended): [createThread] is idempotent on the id and the id
    round-trips through [localStorage]; the run does not.  With an id
    held in memory the call does nothing at all.  With none in memory
    and a non-empty id stored, that id becomes the current one, one poll
    is made for it and no new conversation is requested.  With neither,
    the id the backend returns is kept and stored.  After a reload, a
    stored non-empty id is restored as it was, but the restoring poll
    carries no run id, no run is active afterwards and the polling
    interval is not started: a run that was active before the reload is
    not resumed. *)
Theorem createThread_idempotent (env : Answers Request) (s : State) :
  (forall t, threadId s = Some t ->
     runTask env (createThread s) = (Resolved tt, s, [])) /\
  (forall t, threadId s = None -> localStorage s = Some t -> t <> "" ->
     threadId (store (runTask env (createThread s))) = Some t /\
     localStorage (store (runTask env (createThread s))) = Some t /\
     existsb is_new (calls (runTask env (createThread s))) = false /\
     hd_error (calls (runTask env (createThread s)))
       = Some (WList (Some t) (runId s) (env _ (PostChatList (Some t) (runId s))))) /\
  (forall t, threadId s = None -> truthy (localStorage s) = false ->
     env _ PostChatNew = Resolved t ->
     runTask env (createThread s)
       = (Resolved tt, localStorage_setItem t (set_threadId (Some t) s),
          [WNew (Resolved t)])) /\
  (forall t, localStorage s = Some t -> t <> "" ->
     threadId (store (runTask env (createThread (reload s)))) = Some t /\
     localStorage (store (runTask env (createThread (reload s)))) = Some t /\
     hd_error (calls (runTask env (createThread (reload s))))
       = Some (WList (Some t) None (env _ (PostChatList (Some t) None))) /\
     existsb is_new (calls (runTask env (createThread (reload s)))) = false /\
     runId (store (runTask env (createThread (reload s)))) = None /\
     pollingActive (store (runTask env (createThread (reload s)))) = false).
Proof.
  split; [| split; [| split]].
  - intros t Ht. unfold createThread. rewrite Ht. simpl. rewrite Ht. reflexivity.
  - intros t Hth Hls Hne.
    destruct (createThread_restores env s Hth Hls Hne) as (H1 & H2 & _ & H4 & H5).
    repeat split; assumption.
  - intros t Hth Hls Henv. unfold createThread. rewrite Hth, Hls. simpl.
    rewrite Hth. unfold runTask. simpl. rewrite Henv. reflexivity.
  - intros t Hls Hne.
    destruct (createThread_restores env (reload s) eq_refl Hls Hne)
      as (H1 & H2 & H3 & H4 & H5).
    simpl in H3, H5.
    repeat split; try assumption.
    unfold pollingActive. rewrite H3. reflexivity.
Qed.

(** C7 (as amended): a poll replaces the log by the snapshot it received,
    in the reverse of the order the transport listed it, whatever the
    log held before: two polls that receive the same list show the same
    log, the message the transport listed first is shown last, and so
    the newest message is shown last when the transport lists it
    first. *)
Theorem updateMessages_replaces_log (env : Answers Request) (s : State) (data : ListData) :
  env _ (PostChatList (threadId s) (runId s)) = Resolved data ->
  messages (store (runTask env (updateMessages s))) = rev (d_messages data) /\
  renderLog (store (runTask env (updateMessages s)))
    = rev (map renderMessage (d_messages data)) /\
  (forall (env2 : Answers Request) (s2 : State),
      env2 _ (PostChatList (threadId s2) (runId s2)) = Resolved data ->
      renderLog (store (runTask env2 (updateMessages s2)))
        = renderLog (store (runTask env (updateMessages s)))) /\
  (forall m rest, d_messages data = m :: rest ->
      shownLast (store (runTask env (updateMessages s))) = Some m) /\
  (forall m rest, d_messages data = m :: rest -> newest (d_messages data) m ->
      exists shown,
        shownLast (store (runTask env (updateMessages s))) = Some shown /\
        newest (d_messages data) shown).
Proof.
  assert (Hlog : forall (env' : Answers Request) s',
             env' _ (PostChatList (threadId s') (runId s')) = Resolved data ->
             messages (store (runTask env' (updateMessages s')))
               = rev (d_messages data)).
  { intros env' s' Henv. rewrite (updateMessages_run _ _ Henv). cbv zeta.
    destruct (status_is data "requires_action").
    - destruct (invokeChatbotFunctions_frame env' (d_run data)
                  (setMessages (rev (d_messages data)) s')) as [Hf _].
      unfold store in *.
      destruct (runTask env' (invokeChatbotFunctions (d_run data) _))
        as [[[[] | e] s2] tr]; simpl in Hf; destruct Hf as (_ & _ & Hm & _).
      + destruct (truthy (runId s') && status_is data "completed"); exact Hm.
      + exact Hm.
    - destruct (truthy (runId s') && status_is data "completed"); reflexivity. }
  intros Henv.
  assert (Hlast : forall m rest, d_messages data = m :: rest ->
             shownLast (store (runTask env (updateMessages s))) = Some m).
  { intros m rest Hd. unfold shownLast. rewrite (Hlog _ _ Henv), Hd. simpl.
    rewrite map_app. simpl. apply last_last. }
  split; [exact (Hlog _ _ Henv) |].
  split; [unfold renderLog; rewrite (Hlog _ _ Henv); apply map_rev |].
  split; [| split; [exact Hlast |]].
  - intros env2 s2 Henv2. unfold renderLog.
    rewrite (Hlog _ _ Henv), (Hlog _ _ Henv2). reflexivity.
  - intros m rest Hd Hnew. exists m. split; [exact (Hlast _ _ Hd) | exact Hnew].
Qed.

End Conversation.

Lemma createThread_idempotent_witness :
  threadId (store (runTask (Example.answering (Example.poll "in_progress" Example.plain))
                     (createThread (B := Example.browser)
                        (reload (Example.mounted (Some "run_1"))))))
    = Some "thread_1" /\
  runId (store (runTask (Example.answering (Example.poll "in_progress" Example.plain))
                  (createThread (B := Example.browser)
                     (reload (Example.mounted (Some "run_1"))))))
    = None.
Proof.
  destruct (proj2 (proj2 (proj2
             (createThread_idempotent (B := Example.browser)
                (Example.answering (Example.poll "in_progress" Example.plain))
                (Example.mounted (Some "run_1")))))
             "thread_1" eq_refl ltac:(discriminate))
    as (Hid & _ & _ & _ & Hrun & _).
  split; [exact Hid | exact Hrun].
Defined.

(** The claim of C6 as the design states it fails in its last part: after
    a reload the restored conversation has no run, whatever run was active
    before. *)
Lemma createThread_does_not_resume_run :
  ~ (forall (B : Builtins) (env : Answers Request) (s : State) (t r : string),
       threadId s = Some t -> localStorage s = Some t -> runId s = Some r ->
       runId (store (runTask env (createThread (reload s)))) = Some r).
Proof.
  intros H.
  specialize (H Example.browser
                (Example.answering (Example.poll "in_progress" Example.plain))
                (Example.mounted (Some "run_1")) "thread_1" "run_1"
                eq_refl eq_refl eq_refl).
  discriminate H.
Qed.

Lemma updateMessages_replaces_log_witness :
  messages (store (runTask (Example.answering (Example.poll "in_progress" Example.plain))
                     (updateMessages (B := Example.browser)
                        (Example.mounted (Some "run_1")))))
    = [Example.older; Example.newer].
Proof.
  exact (proj1 (updateMessages_replaces_log (B := Example.browser)
                  (Example.answering (Example.poll "in_progress" Example.plain))
                  (Example.mounted (Some "run_1")) eq_refl)).
Defined.

(** The claim of C7 as the design states it fails: when the transport
    lists the snapshot oldest first, the log ends with the oldest
    message. *)
Lemma log_follows_transport_order :
  ~ (forall (B : Builtins) (env : Answers Request) (s : State) (data : ListData)
            (m : ThreadMessage),
       env _ (PostChatList (threadId s) (runId s)) = Resolved data ->
       shownLast (store (runTask env (updateMessages s))) = Some m ->
       newest (d_messages data) m).
Proof.
  intros H.
  destruct (H Example.browser
              (Example.answering
                 {| d_messages := [Example.older; Example.newer];
                    d_status := Some "in_progress";
                    d_run := Some Example.plain |})
              (Example.mounted (Some "run_1")) _ Example.older eq_refl eq_refl)
    as [_ Hmax].
  specialize (Hmax Example.newer (or_intror (or_introl eq_refl))).
  simpl in Hmax. lia.
Qed.

Section RelayFacts.

Import Backend.

Variable ASSISTANT_ID : string.

(** C8: in the backend's [sendMessage] the run is started only after
    the message creation has resolved: in every execution, whatever the
    remote answers, a run-start call has exactly one call before it,
    the successful creation of the user message.  If the creation
    fails, no run-start is issued.  If the creation succeeds and the
    run-start fails, the function rejects with that error after exactly
    these two calls: the thread has the new message, no run was added
    to it, and nothing was written to the store. *)
Theorem backend_message_precedes_run
    (env : Answers Call) (threadId text clientIp : string) :
  (forall pre ev post,
      snd (exec env (sendMessage ASSISTANT_ID threadId text clientIp))
        = pre ++ ev :: post ->
      is_run_start ev = true ->
      pre = [EMessagesCreate threadId "user" text (Resolved tt)]) /\
  (forall e,
      env _ (MessagesCreate threadId "user" text) = Rejected e ->
      exec env (sendMessage ASSISTANT_ID threadId text clientIp)
        = (Rejected e, [EMessagesCreate threadId "user" text (Rejected e)])) /\
  (forall e,
      env _ (MessagesCreate threadId "user" text) = Resolved tt ->
      env _ (RunsCreate threadId ASSISTANT_ID) = Rejected e ->
      exec env (sendMessage ASSISTANT_ID threadId text clientIp)
        = (Rejected e,
           [ EMessagesCreate threadId "user" text (Resolved tt);
             ERunsCreate threadId ASSISTANT_ID (Rejected e) ]) /\
      forall w,
        let w' := effects
                    (snd (exec env (sendMessage ASSISTANT_ID threadId text clientIp))) w in
        thread_messages w' = thread_messages w ++ [(threadId, "user", text)] /\
        thread_runs w' = thread_runs w /\
        runs_of threadId w' = runs_of threadId w /\
        db_messages w' = db_messages w).
Proof.
  unfold exec, sendMessage. simpl.
  destruct (env _ (MessagesCreate threadId "user" text)) as [[] | e1] eqn:H1; simpl.
  - destruct (env _ (RunsCreate threadId ASSISTANT_ID)) as [run | e2] eqn:H2; simpl.
    + destruct (env _ (InsertMessage threadId (run_id run) text clientIp))
        as [[] | e3]; simpl.
      all: (split; [| split; [discriminate | discriminate]]).
      all: intros [| a [| b [| c pre]]] ev post Heq Hrs; simpl in Heq;
        inversion Heq; subst; try discriminate Hrs; try reflexivity.
      all: match goal with
           | H : [] = _ ++ _ :: _ |- _ => destruct (app_cons_not_nil _ _ _ H)
           end.
    + split; [| split; [discriminate |]].
      * intros [| a [| b pre]] ev post Heq Hrs; simpl in Heq;
          inversion Heq; subst; try discriminate Hrs; try reflexivity.
        match goal with
        | H : [] = _ ++ _ :: _ |- _ => destruct (app_cons_not_nil _ _ _ H)
        end.
      * intros e _ He. inversion He; subst. split; [reflexivity |].
        intros w. repeat split.
  - split; [| split; [| discriminate]].
    + intros [| a pre] ev post Heq Hrs; simpl in Heq;
        inversion Heq; subst; try discriminate Hrs.
      match goal with
      | H : [] = _ ++ _ :: _ |- _ => destruct (app_cons_not_nil _ _ _ H)
      end.
    + intros e He. inversion He; subst. reflexivity.
Qed.

End RelayFacts.

Lemma backend_message_precedes_run_witness :
  Backend.exec Example.refusing
    (Backend.sendMessage "asst_1" "thread_1" "Show me Paris" "203.0.113.7")
  = (Rejected "APIError",
     [ Backend.EMessagesCreate "thread_1" "user" "Show me Paris" (Resolved tt);
       Backend.ERunsCreate "thread_1" "asst_1" (Rejected "APIError") ]).
Proof.
  exact (proj1 (proj2 (proj2 (backend_message_precedes_run "asst_1" Example.refusing
                                "thread_1" "Show me Paris" "203.0.113.7"))
                  "APIError" eq_refl eq_refl)).
Defined.

(* ================================================================== *)
(** * Further properties *)
(* ================================================================== *)

Section Rendering.

Lemma split_lines_cons text : exists line lines, split_lines text = line :: lines.
Proof.
  induction text as [| c rest IH]; simpl; [eauto |].
  destruct (Ascii.eqb c "010"%char); [eauto |].
  destruct IH as (line & lines & ->). eauto.
Qed.

Lemma split_lines_length text :
  length (split_lines text) = Datatypes.S (count_newlines text).
Proof.
  induction text as [| c rest IH]; simpl; [reflexivity |].
  destruct (Ascii.eqb c "010"%char); simpl; [now rewrite IH |].
  destruct (split_lines_cons rest) as (line & lines & Heq).
  rewrite Heq in *. exact IH.
Qed.

Lemma split_lines_no_newline text :
  forall line, In line (split_lines text) -> count_newlines line = 0.
Proof.
  induction text as [| c rest IH]; simpl.
  - intros line [<- | []]. reflexivity.
  - destruct (Ascii.eqb c "010"%char) eqn:Hc.
    + intros line [<- | Hin]; [reflexivity | now apply IH].
    + destruct (split_lines_cons rest) as (first & lines & Heq).
      rewrite Heq in *. intros line [<- | Hin].
      * simpl. rewrite Hc. apply IH. now left.
      * apply IH. now right.
Qed.

Lemma join_split_lines text : join_lines (split_lines text) = text.
Proof.
  induction text as [| c rest IH]; simpl; [reflexivity |].
  destruct (Ascii.eqb c "010"%char) eqn:Hc.
  - apply Ascii.eqb_eq in Hc. subst c.
    destruct (split_lines_cons rest) as (line & lines & Heq).
    rewrite Heq in *. simpl. change (join_lines (line :: lines)) with
      (match lines with [] => line | _ => line ++ newline ++ join_lines lines end).
    f_equal. exact IH.
  - destruct (split_lines_cons rest) as (line & lines & Heq).
    rewrite Heq in *. destruct lines as [| next lines].
    + simpl in *. now rewrite IH.
    + change (join_lines (String c line :: next :: lines))
        with (String c (line ++ newline ++ join_lines (next :: lines))).
      f_equal. exact IH.
Qed.

Lemma renderLines_markdown lines role : forall index,
  map markdown (renderLines index lines role) = lines.
Proof.
  induction lines as [| line rest IH]; intros index; simpl; [| rewrite IH];
    reflexivity.
Qed.

Lemma renderLines_later_headings lines role : forall index,
  map heading (renderLines (Datatypes.S index) lines role)
    = repeat None (length lines).
Proof.
  induction lines as [| line rest IH]; intros index; simpl; [| rewrite IH];
    reflexivity.
Qed.

(** X1: [renderText] makes one paragraph per line of the text, one more
    than the text has line feeds, so at least one even for the empty
    text; the role name heads the first paragraph and no other; no
    paragraph holds a line feed. *)
Theorem renderText_paragraphs (text role : string) :
  length (renderText text role) = Datatypes.S (count_newlines text) /\
  map heading (renderText text role)
    = Some (getRoleName role) :: repeat None (count_newlines text) /\
  (forall p, In p (renderText text role) -> count_newlines (markdown p) = 0).
Proof.
  unfold renderText.
  pose proof (split_lines_length text) as Hlen.
  pose proof (split_lines_no_newline text) as Hno.
  pose proof (renderLines_markdown (split_lines text) role 0) as Hmd.
  destruct (split_lines text) as [| line lines]; [discriminate |].
  simpl in Hlen. injection Hlen as Hlen.
  split; [| split].
  - rewrite <- (length_map markdown), Hmd. simpl. now rewrite Hlen.
  - simpl. rewrite renderLines_later_headings, Hlen. reflexivity.
  - intros p Hp. apply Hno. rewrite <- Hmd. now apply in_map.
Qed.

(** X2: [renderText] loses nothing of the text: the lines handed to the
    Markdown component, joined by line feeds, are the text. *)
Theorem renderText_keeps_text (text role : string) :
  join_lines (map markdown (renderText text role)) = text.
Proof.
  unfold renderText. rewrite renderLines_markdown. apply join_split_lines.
Qed.

End Rendering.

Section Batches.

Context {B : Builtins}.

(** Dispatching a batch in two parts. *)
Lemma dispatchLoop_app first : forall rest outputs s,
  dispatchLoop (first ++ rest) outputs s =
  match dispatchLoop first outputs s with
  | (Resolved outs, s1) => dispatchLoop rest outs s1
  | (Rejected e, s1) => (Rejected e, s1)
  end.
Proof.
  induction first as [| toolCall more IH]; intros rest outputs s; simpl;
    [reflexivity |].
  destruct (String.eqb (tc_type toolCall) "function"); [| apply IH].
  destruct (JSON_parse (fn_arguments toolCall)) as [toolArgs |]; [| reflexivity].
  destruct (callChatbotFunction (fn_name toolCall) toolArgs s) as [[out | e] s1];
    [apply IH | reflexivity].
Qed.

(** A function call that cannot be dispatched throws where it stands and
    leaves the store alone. *)
Lemma dispatchLoop_stops toolCall rest outputs s :
  tc_type toolCall = "function" ->
  dispatchable toolCall = false ->
  dispatchLoop (toolCall :: rest) outputs s =
  (Rejected (match JSON_parse (fn_arguments toolCall) with
             | Some _ => TypeError
             | None => SyntaxError
             end), s).
Proof.
  intros Hty Hd. unfold dispatchable in Hd. simpl. rewrite Hty in *. simpl in *.
  destruct (JSON_parse (fn_arguments toolCall)) as [toolArgs |]; [| reflexivity].
  unfold callChatbotFunction.
  destruct (chatbotFunctions (fn_name toolCall)) as [[|] | |].
  - unfold bind_updateMap. rewrite Hd. reflexivity.
  - unfold bind_addMarker. rewrite Hd. reflexivity.
  - destruct (Object_prototype_call (fn_name toolCall) toolArgs);
      [discriminate | reflexivity].
  - reflexivity.
Qed.

(** X3: nothing is rolled back when a batch fails.  If the calls before
    the first one that cannot be dispatched all can, the dispatcher runs
    their handlers, throws at that call (a [SyntaxError] when its
    arguments do not parse, a [TypeError] otherwise), never runs a later
    call and submits nothing: the store is the one the earlier handlers
    left. *)
Theorem failed_batch_keeps_earlier_effects
    (env : Answers Request) (s : State) (run : Run)
    (before after : list ToolCall) (failing : ToolCall) :
  required_action run
    = Some {| ra_type := "submit_tool_outputs";
              tool_calls := before ++ failing :: after |} ->
  forallb dispatchable before = true ->
  tc_type failing = "function" ->
  dispatchable failing = false ->
  exists outs s1,
    dispatchLoop before [] s = (Resolved outs, s1) /\
    runTask env (invokeChatbotFunctions (Some run) s)
      = (Rejected (match JSON_parse (fn_arguments failing) with
                   | Some _ => TypeError
                   | None => SyntaxError
                   end), s1, []).
Proof.
  intros Hra Hbefore Hty Hfail.
  destruct (dispatchLoop_completes _ [] s Hbefore) as (outs & s1 & Hloop).
  exists outs, s1. split; [exact Hloop |].
  unfold invokeChatbotFunctions. rewrite Hra. simpl.
  rewrite dispatchLoop_app, Hloop.
  rewrite dispatchLoop_stops; [reflexivity | exact Hty | exact Hfail].
Qed.

Lemma dispatchLoop_receipts tcs : forall outputs s,
  forallb dispatchable tcs = true ->
  (forall toolCall, In toolCall tcs -> own_handler (fn_name toolCall) <> None) ->
  fst (dispatchLoop tcs outputs s) = Resolved (outputs ++ map receipt tcs).
Proof.
  induction tcs as [| toolCall rest IH]; intros outputs s Hall Hown; simpl.
  - now rewrite app_nil_r.
  - simpl in Hall. apply andb_true_iff in Hall as [Hd Hall].
    unfold dispatchable in Hd. apply andb_true_iff in Hd as [Hty Hd].
    rewrite Hty.
    destruct (JSON_parse (fn_arguments toolCall)) as [toolArgs |]; [| discriminate].
    pose proof (Hown toolCall (or_introl eq_refl)) as Hh.
    unfold receipt at 1. unfold own_handler in Hh |- *. unfold callChatbotFunction.
    destruct (chatbotFunctions (fn_name toolCall)) as [[|] | |];
      try (exfalso; apply Hh; reflexivity).
    + unfold bind_updateMap. rewrite Hd. simpl.
      rewrite IH; [now rewrite <- app_assoc | exact Hall |].
      intros tc Hin. apply Hown. now right.
    + unfold bind_addMarker. rewrite Hd. simpl.
      rewrite IH; [now rewrite <- app_assoc | exact Hall |].
      intros tc Hin. apply Hown. now right.
Qed.

(** X4: what is reported back for a call to one of the two handlers does
    not depend on its arguments or on the map: a batch of dispatchable
    calls to [updateMap] and [addMarker] is answered, call by call, with
    ["Map updated"] or ["Marker added"] under the call's id. *)
Theorem handler_outputs_are_fixed (tcs : list ToolCall) (s : State) :
  forallb dispatchable tcs = true ->
  (forall toolCall, In toolCall tcs -> own_handler (fn_name toolCall) <> None) ->
  fst (dispatchLoop tcs [] s) = Resolved (map receipt tcs).
Proof.
  intros Hall Hown. apply (dispatchLoop_receipts _ [] s Hall Hown).
Qed.

(** A call that does not resolve to [updateMap] leaves the map centre and
    zoom alone; one that does not resolve to [addMarker] leaves the marker
    alone. *)
Lemma callChatbotFunction_other functionName toolArgs s :
  (own_handler functionName <> Some HUpdateMap ->
     mapCenter (snd (callChatbotFunction functionName toolArgs s)) = mapCenter s /\
     mapZoom (snd (callChatbotFunction functionName toolArgs s)) = mapZoom s) /\
  (own_handler functionName <> Some HAddMarker ->
     mapMarker (snd (callChatbotFunction functionName toolArgs s)) = mapMarker s).
Proof.
  unfold own_handler, callChatbotFunction.
  destruct (chatbotFunctions functionName) as [[|] | |]; split; intros Hh;
    try (exfalso; apply Hh; reflexivity).
  - destruct (bind_updateMap toolArgs); reflexivity.
  - destruct (bind_addMarker toolArgs); split; reflexivity.
  - destruct (Object_prototype_call functionName toolArgs); split; reflexivity.
  - destruct (Object_prototype_call functionName toolArgs); reflexivity.
  - split; reflexivity.
  - reflexivity.
Qed.

Lemma dispatchLoop_other_calls tcs : forall outputs s,
  ((forall toolCall, In toolCall tcs -> own_handler (fn_name toolCall) <> Some HUpdateMap) ->
     mapCenter (snd (dispatchLoop tcs outputs s)) = mapCenter s /\
     mapZoom (snd (dispatchLoop tcs outputs s)) = mapZoom s) /\
  ((forall toolCall, In toolCall tcs -> own_handler (fn_name toolCall) <> Some HAddMarker) ->
     mapMarker (snd (dispatchLoop tcs outputs s)) = mapMarker s).
Proof.
  induction tcs as [| toolCall rest IH]; intros outputs s; simpl;
    [split; intros _; repeat split |].
  destruct (String.eqb (tc_type toolCall) "function").
  2: { split; intros Hother; apply IH; intros tc Hin; apply Hother; now right. }
  destruct (JSON_parse (fn_arguments toolCall)) as [toolArgs |];
    [| split; intros _; repeat split].
  pose proof (callChatbotFunction_other (fn_name toolCall) toolArgs s) as [Hc Hm].
  destruct (callChatbotFunction (fn_name toolCall) toolArgs s) as [[out | e] s1];
    simpl in Hc, Hm; split; intros Hother.
  - destruct (Hc (Hother _ (or_introl eq_refl))) as [<- <-].
    apply IH. intros tc Hin. apply Hother. now right.
  - rewrite <- (Hm (Hother _ (or_introl eq_refl))).
    apply IH. intros tc Hin. apply Hother. now right.
  - apply Hc, Hother. now left.
  - apply Hm, Hother. now left.
Qed.

(** Calling a handler with arguments that can be destructured. *)
Lemma callChatbotFunction_own functionName toolArgs s h :
  own_handler functionName = Some h ->
  destructurable toolArgs = true ->
  callChatbotFunction functionName toolArgs s =
  (Resolved (JStr (confirmation h)),
   match h with
   | HUpdateMap =>
       snd (updateMap {| um_longitude := own_prop "longitude" toolArgs;
                         um_latitude := own_prop "latitude" toolArgs;
                         um_zoom := own_prop "zoom" toolArgs |} s)
   | HAddMarker =>
       snd (addMarker {| am_latitude := own_prop "latitude" toolArgs;
                         am_longitude := own_prop "longitude" toolArgs;
                         am_label := own_prop "label" toolArgs |} s)
   end).
Proof.
  unfold own_handler, callChatbotFunction. intros Hh Hd.
  destruct (chatbotFunctions functionName) as [[|] | |]; inversion Hh; subst h.
  - unfold bind_updateMap. rewrite Hd. reflexivity.
  - unfold bind_addMarker. rewrite Hd. reflexivity.
Qed.

(** X5: within a batch the last write wins.  Provided no call before it
    throws, so that the loop reaches it, and the call itself can be
    dispatched, the map centre and zoom after the dispatch are the
    [latitude], [longitude] and [zoom] properties of the arguments of the
    last call to [updateMap] ([undefined] for a property the arguments
    lack), whatever the earlier calls are (calls of another type, which
    are passed over, included) and whatever other calls follow it, even
    failing ones; likewise the marker is the one of the last call to
    [addMarker]. *)
Theorem last_call_sets_the_map
    (before after : list ToolCall) (last : ToolCall) (toolArgs : jsval) (s : State) :
  is_resolved (fst (dispatchLoop before [] s)) = true ->
  dispatchable last = true ->
  JSON_parse (fn_arguments last) = Some toolArgs ->
  (own_handler (fn_name last) = Some HUpdateMap ->
   (forall toolCall, In toolCall after ->
      own_handler (fn_name toolCall) <> Some HUpdateMap) ->
   mapCenter (snd (dispatchLoop (before ++ last :: after) [] s))
     = {| latitude := own_prop "latitude" toolArgs;
          longitude := own_prop "longitude" toolArgs |} /\
   mapZoom (snd (dispatchLoop (before ++ last :: after) [] s))
     = own_prop "zoom" toolArgs) /\
  (own_handler (fn_name last) = Some HAddMarker ->
   (forall toolCall, In toolCall after ->
      own_handler (fn_name toolCall) <> Some HAddMarker) ->
   mapMarker (snd (dispatchLoop (before ++ last :: after) [] s))
     = Some {| marker_latitude := own_prop "latitude" toolArgs;
               marker_longitude := own_prop "longitude" toolArgs;
               marker_label := own_prop "label" toolArgs |}).
Proof.
  intros Hbefore Hall Hparse.
  rewrite dispatchLoop_app.
  destruct (dispatchLoop before [] s) as [[outs | e] s1]; [| discriminate Hbefore].
  unfold dispatchable in Hall. apply andb_true_iff in Hall as [Hty Hd].
  rewrite Hparse in Hd. simpl. rewrite Hty, Hparse.
  assert (Hdes : forall h, own_handler (fn_name last) = Some h ->
                           destructurable toolArgs = true).
  { unfold own_handler. intros h Hh.
    destruct (chatbotFunctions (fn_name last)); [exact Hd | discriminate | discriminate]. }
  split; intros Hlast Hothers;
    rewrite (callChatbotFunction_own _ _ s1 Hlast (Hdes _ Hlast)).
  - destruct (proj1 (dispatchLoop_other_calls after
                       (outs ++ [ {| tool_call_id := tc_id last;
                                     output := JStr (confirmation HUpdateMap) |} ])
                       (snd (updateMap {| um_longitude := own_prop "longitude" toolArgs;
                                          um_latitude := own_prop "latitude" toolArgs;
                                          um_zoom := own_prop "zoom" toolArgs |} s1)))
                Hothers) as [-> ->].
    split; reflexivity.
  - rewrite (proj2 (dispatchLoop_other_calls after
                      (outs ++ [ {| tool_call_id := tc_id last;
                                    output := JStr (confirmation HAddMarker) |} ])
                      (snd (addMarker {| am_latitude := own_prop "latitude" toolArgs;
                                         am_longitude := own_prop "longitude" toolArgs;
                                         am_label := own_prop "label" toolArgs |} s1)))
               Hothers).
    reflexivity.
Qed.

End Batches.

Lemma failed_batch_keeps_earlier_effects_witness :
  exists outs s1,
    dispatchLoop (B := Example.browser) [Example.updateMapCall] []
      (Example.mounted (Some "run_1")) = (Resolved outs, s1) /\
    runTask Example.offline
      (invokeChatbotFunctions (B := Example.browser)
         (Some (Example.pending
                  [Example.updateMapCall; Example.unknownCall; Example.addMarkerCall]))
         (Example.mounted (Some "run_1")))
    = (Rejected TypeError, s1, []).
Proof.
  exact (failed_batch_keeps_earlier_effects (B := Example.browser) Example.offline
           (Example.mounted (Some "run_1"))
           (Example.pending
              [Example.updateMapCall; Example.unknownCall; Example.addMarkerCall])
           [Example.updateMapCall] [Example.addMarkerCall] Example.unknownCall
           eq_refl eq_refl eq_refl eq_refl).
Defined.

Lemma handler_outputs_are_fixed_witness :
  fst (dispatchLoop (B := Example.browser)
         [Example.updateMapCall; Example.addMarkerCall] []
         (Example.mounted (Some "run_1")))
  = Resolved [ {| tool_call_id := "call_1"; output := JStr "Map updated" |};
               {| tool_call_id := "call_4"; output := JStr "Marker added" |} ].
Proof.
  refine (handler_outputs_are_fixed (B := Example.browser)
            [Example.updateMapCall; Example.addMarkerCall]
            (Example.mounted (Some "run_1")) eq_refl _).
  intros toolCall [<- | [<- | []]]; discriminate.
Defined.

Lemma last_call_sets_the_map_witness :
  mapZoom (snd (dispatchLoop (B := Example.browser)
                  ([Example.retrievalCall; Example.updateMapCall] ++
                   {| tc_id := "call_6"; tc_type := "function";
                      fn_name := "updateMap"; fn_arguments := "{}" |}
                   :: [Example.addMarkerCall; Example.unknownCall]) []
                  (Example.mounted (Some "run_1"))))
  = JUndefined.
Proof.
  refine (proj2 (proj1 (last_call_sets_the_map (B := Example.browser)
                          [Example.retrievalCall; Example.updateMapCall]
                          [Example.addMarkerCall; Example.unknownCall]
                          {| tc_id := "call_6"; tc_type := "function";
                             fn_name := "updateMap"; fn_arguments := "{}" |}
                          (toolArgs := JObj [])
                          (Example.mounted (Some "run_1")) eq_refl eq_refl eq_refl)
                   eq_refl _)).
  intros toolCall [<- | [<- | []]]; discriminate.
Defined.

Section Lifecycle.

Context {B : Builtins}.

Lemma status_is_exclusive data :
  status_is data "requires_action" = true -> status_is data "completed" = false.
Proof.
  unfold status_is. destruct (d_status data) as [status |]; [| discriminate].
  intros H. apply String.eqb_eq in H. subst status. reflexivity.
Qed.

(** X6: a poll registers the timeout that will clear the run exactly when
    it is answered with ["completed"] while the run id is non-empty: one
    more entry of 5000 ms at the end of the pending timeouts then, none
    otherwise (whatever else the poll does), and the timeouts already
    pending are never dropped. *)
Theorem updateMessages_timeouts (env : Answers Request) (s : State) (data : ListData) :
  env _ (PostChatList (threadId s) (runId s)) = Resolved data ->
  timeouts (store (runTask env (updateMessages s)))
    = timeouts s ++ (if truthy (runId s) && status_is data "completed"
                     then [(5000, ClearRunId)] else []).
Proof.
  intros Henv. rewrite (updateMessages_run _ _ Henv). cbv zeta.
  destruct (status_is data "requires_action") eqn:Hra.
  - rewrite (status_is_exclusive _ Hra), andb_false_r, app_nil_r.
    destruct (invokeChatbotFunctions_frame env (d_run data)
                (setMessages (rev (d_messages data)) s)) as [Hf _].
    unfold store in *.
    destruct (runTask env (invokeChatbotFunctions (d_run data) _))
      as [[[[] | e] s2] tr]; simpl in Hf; destruct Hf as (_ & _ & _ & _ & _ & Ht);
      exact Ht.
  - simpl. destruct (truthy (runId s) && status_is data "completed");
      [reflexivity | now rewrite app_nil_r].
Qed.

(** X7: a whole turn.  On an idle component without pending timeouts, a
    send answered with a non-empty run id, then a poll answered with
    ["completed"], then the timeout falling due: the input is disabled
    from the send until the timeout, the log is the reversed snapshot of
    the poll, the map, the conversation id and the stored id are as at
    the start, no run and no timeout are left, and the next
    [sendMessage] goes out to the backend. *)
Theorem completed_turn_returns_to_idle
    (env1 env2 env3 : Answers Request) (s : State)
    (text next : string) (newRun : string) (data : ListData) :
  runId s = None -> timeouts s = [] ->
  env1 _ (PostChatSend (threadId s) text) = Resolved newRun ->
  newRun <> "" ->
  env2 _ (PostChatList (threadId s) (Some newRun)) = Resolved data ->
  status_is data "completed" = true ->
  let s1 := store (runTask env1 (sendMessage text s)) in
  let s2 := store (runTask env2 (updateMessages s1)) in
  let s3 := fireTimeout s2 in
  inputDisabled s1 = true /\ inputDisabled s2 = true /\
  s3 = setMessages (rev (d_messages data)) s /\
  calls (runTask env3 (sendMessage next s3))
    = [WSend (threadId s) next (env3 _ (PostChatSend (threadId s) next))].
Proof.
  intros Hidle Hto Hsend Hne Hlist Hdone s1.
  assert (Hs1 : s1 = setRunId (Some newRun) s).
  { subst s1. unfold sendMessage, runTask, store. rewrite Hidle. simpl.
    rewrite Hsend. reflexivity. }
  rewrite Hs1. clear s1 Hs1. intros s2.
  assert (Hra : status_is data "requires_action" = false).
  { destruct (status_is data "requires_action") eqn:H; [| reflexivity].
    rewrite (status_is_exclusive _ H) in Hdone. discriminate. }
  assert (Hs2 : s2 = setTimeout ClearRunId 5000
                       (setMessages (rev (d_messages data)) (setRunId (Some newRun) s))).
  { subst s2. rewrite (updateMessages_run env2 (setRunId (Some newRun) s) Hlist).
    cbv zeta. rewrite Hra, Hdone. simpl.
    apply String.eqb_neq in Hne. rewrite Hne. reflexivity. }
  rewrite Hs2. clear s2 Hs2. intros s3.
  assert (Hs3 : s3 = setMessages (rev (d_messages data)) s).
  { subst s3. unfold fireTimeout. simpl. rewrite Hto. simpl.
    destruct s; simpl in *. subst. reflexivity. }
  rewrite Hs3. repeat split.
  unfold sendMessage, runTask, calls. simpl. rewrite Hidle. simpl.
  destruct (env3 _ (PostChatSend (threadId s) next)); reflexivity.
Qed.

End Lifecycle.

Section CaughtFacts.

Variables (E : Type -> Type) (S Ev : Type).
Variable log : forall R, E R -> outcome R -> Ev.
Variable env : Answers E.

(** Catching changes how the promise settles and nothing else. *)
Lemma run_caught A (p : Proc E S A) :
  run log env (caught p)
    = (Resolved tt, snd (fst (run log env p)), snd (run log env p)).
Proof.
  induction p as [o s | R rq s k IH]; simpl; [reflexivity |].
  rewrite IH. destruct (run log env (k (env rq))) as [[o s'] tr]. reflexivity.
Qed.

End CaughtFacts.

Section Threads.

Context {B : Builtins}.

(** [createThread], case by case. *)
Lemma createThread_run (env : Answers Request) (s : State) :
  runTask env (createThread s) =
  match threadId s with
  | Some _ => (Resolved tt, s, [])
  | None =>
      if truthy (localStorage s)
      then runTask env (updateMessages (set_threadId (localStorage s) s))
      else match env _ PostChatNew with
           | Resolved newId =>
               (Resolved tt, localStorage_setItem newId (set_threadId (Some newId) s),
                [WNew (Resolved newId)])
           | Rejected e => (Rejected e, s, [WNew (Rejected e)])
           end
  end.
Proof.
  unfold createThread. destruct (threadId s) as [t |] eqn:Hth.
  - simpl. rewrite Hth. reflexivity.
  - destruct (truthy (localStorage s)) eqn:Htr.
    + destruct (localStorage s) as [t |] eqn:Hls; [| discriminate].
      unfold runTask. rewrite run_andThen.
      set (s0 := set_threadId (Some t) s).
      destruct (updateMessages_frame env s0) as (Ht & _).
      change (threadId s0) with (Some t) in Ht.
      unfold runTask, store in Ht.
      destruct (run (@wire) env (updateMessages s0)) as [[[[] | e] s1] tr];
        cbn [fst snd] in Ht; [| reflexivity].
      rewrite Ht. simpl. now rewrite app_nil_r.
    + simpl. rewrite Hth. unfold runTask. simpl.
      destruct (env _ PostChatNew); reflexivity.
Qed.

(** X8: how [createThread] fails.  When nothing is stored and the request
    for a new conversation fails, the error reaches the caller and the
    store is untouched, so that a later call asks again and, answered,
    keeps and stores the new id.  When the poll made for a restored id
    fails, the error reaches the caller but the restored id stays the
    current one: a later call does nothing, and the poll is not
    retried. *)
Theorem createThread_failures (env : Answers Request) (s : State) (e : error) :
  threadId s = None ->
  (truthy (localStorage s) = false ->
   env _ PostChatNew = Rejected e ->
   runTask env (createThread s) = (Rejected e, s, [WNew (Rejected e)]) /\
   forall (env2 : Answers Request) newId,
     env2 _ PostChatNew = Resolved newId ->
     runTask env2 (createThread (store (runTask env (createThread s))))
       = (Resolved tt, localStorage_setItem newId (set_threadId (Some newId) s),
          [WNew (Resolved newId)])) /\
  (forall t,
     localStorage s = Some t -> t <> "" ->
     env _ (PostChatList (Some t) (runId s)) = Rejected e ->
     runTask env (createThread s)
       = (Rejected e, set_threadId (Some t) s,
          [WList (Some t) (runId s) (Rejected e)]) /\
     forall env2 : Answers Request,
       runTask env2 (createThread (store (runTask env (createThread s))))
         = (Resolved tt, set_threadId (Some t) s, [])).
Proof.
  intros Hth. split.
  - intros Hls Hnew.
    assert (H1 : runTask env (createThread s) = (Rejected e, s, [WNew (Rejected e)])).
    { rewrite createThread_run, Hth, Hls, Hnew. reflexivity. }
    split; [exact H1 |].
    intros env2 newId Hnew2. rewrite H1. unfold store. cbn [fst snd].
    rewrite createThread_run, Hth, Hls, Hnew2. reflexivity.
  - intros t Hls Hne Hlist.
    assert (Htr : truthy (localStorage s) = true).
    { rewrite Hls. simpl. apply String.eqb_neq in Hne. now rewrite Hne. }
    assert (H1 : runTask env (createThread s)
                 = (Rejected e, set_threadId (Some t) s,
                    [WList (Some t) (runId s) (Rejected e)])).
    { rewrite createThread_run, Hth, Htr, Hls.
      exact (updateMessages_offline env (set_threadId (Some t) s) Hlist). }
    split; [exact H1 |].
    intros env2. rewrite H1. unfold store. cbn [fst snd].
    rewrite createThread_run. reflexivity.
Qed.

(** X9: [onResetThread] always starts afresh.  Whatever the component
    held, the reset issues exactly one request, for a new conversation,
    and its promise chain resolves; the log and the input are empty and no
    run is active afterwards; the map and the pending timeouts are left as
    they were.  If the request is answered, the new id is the current and
    the stored one; if it fails, no conversation is held and nothing is
    stored. *)
Theorem onResetThread_starts_afresh (env : Answers Request) (s : State) :
  settled (runTask env (onResetThread s)) = Resolved tt /\
  calls (runTask env (onResetThread s)) = [WNew (env _ PostChatNew)] /\
  messages (store (runTask env (onResetThread s))) = [] /\
  message (store (runTask env (onResetThread s))) = "" /\
  runId (store (runTask env (onResetThread s))) = None /\
  map_untouched s (store (runTask env (onResetThread s))) /\
  timeouts (store (runTask env (onResetThread s))) = timeouts s /\
  match env _ PostChatNew with
  | Resolved newId =>
      threadId (store (runTask env (onResetThread s))) = Some newId /\
      localStorage (store (runTask env (onResetThread s))) = Some newId
  | Rejected _ =>
      threadId (store (runTask env (onResetThread s))) = None /\
      localStorage (store (runTask env (onResetThread s))) = None
  end.
Proof.
  unfold onResetThread, runTask, settled, store, calls. rewrite run_caught.
  change (run (@wire) env) with (@runTask unit env).
  rewrite createThread_run. simpl.
  destruct (env _ PostChatNew); simpl; repeat split.
Qed.

End Threads.

Section EventLoop.

Context {B : Builtins}.

Lemma onSendMessage_frame (env : Answers Request) (s : State) :
  threadId (store (runTask env (onSendMessage s))) = threadId s /\
  localStorage (store (runTask env (onSendMessage s))) = localStorage s /\
  timeouts (store (runTask env (onSendMessage s))) = timeouts s.
Proof.
  unfold onSendMessage, sendMessage, runTask, store. simpl.
  destruct (runId s); simpl; [repeat split |].
  destruct (env _ (PostChatSend (threadId s) (String_trim (message s))));
    repeat split.
Qed.

Lemma onKeyDown_frame (env : Answers Request) key (s : State) :
  threadId (store (runTask env (onKeyDown key s))) = threadId s /\
  localStorage (store (runTask env (onKeyDown key s))) = localStorage s /\
  timeouts (store (runTask env (onKeyDown key s))) = timeouts s.
Proof.
  unfold onKeyDown. destruct (String.eqb key "Enter");
    [apply onSendMessage_frame | repeat split].
Qed.

Lemma fireTimeout_frame (s : State) :
  threadId (fireTimeout s) = threadId s /\
  localStorage (fireTimeout s) = localStorage s.
Proof.
  unfold fireTimeout. destruct (timeouts s) as [| [ms []] rest]; repeat split.
Qed.

Lemma onMount_store (env : Answers Request) (s : State) :
  store (runTask env (onMount s)) = store (runTask env (createThread s)).
Proof. unfold onMount, runTask, store. rewrite run_caught. reflexivity. Qed.

Lemma handle_keeps_thread (ev : UiEvent) (s : State) (t : string) :
  threadId s = Some t ->
  threadId (handle ev s) = Some t /\ localStorage (handle ev s) = localStorage s.
Proof.
  intros Hth. destruct ev as [env | text | key env | env | env |]; cbn [handle].
  - rewrite onMount_store, createThread_run, Hth. now split.
  - destruct (inputDisabled s); now split.
  - destruct (inputDisabled s); [now split |].
    destruct (onKeyDown_frame env key s) as (-> & -> & _). now split.
  - destruct (inputDisabled s); [now split |].
    destruct (onSendMessage_frame env s) as (-> & -> & _). now split.
  - destruct (pollingActive s); [| now split].
    destruct (updateMessages_frame env s) as (-> & _ & _ & -> & _). now split.
  - destruct (fireTimeout_frame s) as (-> & ->). now split.
Qed.

(** X10: the conversation id is stable.  Once the component holds a
    conversation id, no sequence of events (mount effects, typing, keys,
    clicks on Send, polls, timeouts), whatever the backend answers, ever
    changes it or what is stored under ["threadId"]. *)
Theorem conversation_id_is_stable (evs : list UiEvent) (s : State) (t : string) :
  threadId s = Some t ->
  threadId (handleAll evs s) = Some t /\
  localStorage (handleAll evs s) = localStorage s.
Proof.
  revert s. induction evs as [| ev evs IH]; intros s Hth; simpl; [now split |].
  destruct (handle_keeps_thread ev s Hth) as [Hth' Hls'].
  destruct (IH _ Hth') as [H1 H2]. split; [exact H1 | congruence].
Qed.

Lemma handle_keeps_agreement (ev : UiEvent) (s : State) :
  (threadId s = None \/ threadId s = localStorage s) ->
  (threadId (handle ev s) = None \/ threadId (handle ev s) = localStorage (handle ev s)) /\
  (forall t, localStorage s = Some t -> t <> "" -> localStorage (handle ev s) = Some t).
Proof.
  intros Hinv. destruct (threadId s) as [t |] eqn:Hth.
  - destruct (handle_keeps_thread ev s Hth) as [H1 H2].
    destruct Hinv as [Hinv | Hinv]; [discriminate |].
    split; [right; congruence | intros; congruence].
  - clear Hinv. destruct ev as [env | text | key env | env | env |]; cbn [handle].
    + rewrite onMount_store.
      destruct (truthy (localStorage s)) eqn:Htr.
      * destruct (localStorage s) as [t |] eqn:Hls; [| discriminate].
        assert (Hne : t <> "").
        { simpl in Htr. intros ->. discriminate. }
        destruct (createThread_restores env s Hth Hls Hne) as (H1 & H2 & _).
        split; [right; congruence |].
        intros t' Ht' _. congruence.
      * rewrite createThread_run, Hth, Htr.
        destruct (env _ PostChatNew) as [newId | e]; unfold store; simpl.
        -- split; [now right |]. intros t Hls Hne. rewrite Hls in Htr.
           simpl in Htr. apply String.eqb_neq in Hne. rewrite Hne in Htr. discriminate.
        -- split; [now left | intros; assumption].
    + destruct (inputDisabled s); simpl; (split; [now left | intros; assumption]).
    + destruct (inputDisabled s); [split; [now left | intros; assumption] |].
      destruct (onKeyDown_frame env key s) as (-> & -> & _).
      split; [now left | intros; assumption].
    + destruct (inputDisabled s); [split; [now left | intros; assumption] |].
      destruct (onSendMessage_frame env s) as (-> & -> & _).
      split; [now left | intros; assumption].
    + destruct (pollingActive s); [| split; [now left | intros; assumption]].
      destruct (updateMessages_frame env s) as (-> & _ & _ & -> & _).
      split; [now left | intros; assumption].
    + destruct (fireTimeout_frame s) as (-> & ->).
      split; [now left | intros; assumption].
Qed.

(** X11: memory and storage agree.  From a fresh mount and through any
    sequence of events, whatever the backend answers, the conversation id
    in memory, when there is one, is the stored one; and a non-empty id
    found in storage at start-up is never replaced: the component holds
    that conversation or none. *)
Theorem stored_conversation_is_kept (stored : option string) (evs : list UiEvent) :
  (threadId (handleAll evs (initialState stored)) = None \/
   threadId (handleAll evs (initialState stored))
     = localStorage (handleAll evs (initialState stored))) /\
  (forall t, stored = Some t -> t <> "" ->
     localStorage (handleAll evs (initialState stored)) = Some t /\
     (threadId (handleAll evs (initialState stored)) = None \/
      threadId (handleAll evs (initialState stored)) = Some t)).
Proof.
  assert (Hgen : forall evs s,
             (threadId s = None \/ threadId s = localStorage s) ->
             (threadId (handleAll evs s) = None \/
              threadId (handleAll evs s) = localStorage (handleAll evs s)) /\
             (forall t, localStorage s = Some t -> t <> "" ->
                localStorage (handleAll evs s) = Some t)).
  { clear evs. induction evs as [| ev evs IH]; intros s Hinv; simpl;
      [split; [exact Hinv | intros; assumption] |].
    destruct (handle_keeps_agreement ev s Hinv) as [Hinv' Hkeep].
    destruct (IH _ Hinv') as [H1 H2].
    split; [exact H1 |]. intros t Hls Hne. apply H2; [apply Hkeep |]; assumption. }
  destruct (Hgen evs (initialState stored) (or_introl eq_refl)) as [H1 H2].
  split; [exact H1 |].
  intros t -> Hne. specialize (H2 t eq_refl Hne).
  split; [exact H2 |]. destruct H1 as [H1 | H1]; [now left | right; congruence].
Qed.

Lemma poll_keeps_run (env : Answers Request) (s : State) :
  never_completed env ->
  runId (store (runTask env (updateMessages s))) = runId s /\
  timeouts (store (runTask env (updateMessages s))) = timeouts s.
Proof.
  intros Hnc.
  destruct (env _ (PostChatList (threadId s) (runId s))) as [data | e] eqn:Henv.
  - destruct (updateMessages_clears_only_completed env s Henv (Hnc _ _ _ Henv)).
    now split.
  - rewrite (updateMessages_offline env s Henv). now split.
Qed.

Lemma handle_keeps_run (ev : UiEvent) (s : State) (r : string) :
  runId s = Some r -> timeouts s = [] ->
  (forall env, answers_of ev = Some env -> never_completed env) ->
  runId (handle ev s) = Some r /\ timeouts (handle ev s) = [].
Proof.
  intros Hr Hto Hnc. unfold inputDisabled, pollingActive.
  destruct ev as [env | text | key env | env | env |]; cbn [handle];
    unfold inputDisabled, pollingActive; rewrite ?Hr; try (now split).
  - rewrite onMount_store, createThread_run.
    destruct (threadId s); [now split |].
    destruct (truthy (localStorage s)).
    + destruct (poll_keeps_run (set_threadId (localStorage s) s) (Hnc env eq_refl))
        as [-> ->]. now split.
    + destruct (env _ PostChatNew); now split.
  - destruct (poll_keeps_run s (Hnc env eq_refl)) as [-> ->]. now split.
  - unfold fireTimeout. rewrite Hto. now split.
Qed.

(** X12: only a completed poll releases a run.  While a run is active and
    no timeout is pending, as long as no poll is answered with the status
    ["completed"] (the run fails, expires, is cancelled or stays in
    progress, or the backend is unreachable), no sequence of events of the
    first version, handled in turn for as long as the component lives,
    writes the run id or registers a timeout: the run id stays the one it
    was, no timeout is pending, and [sendMessage] on the resulting store
    is still the silent no-op. *)
Theorem run_ends_only_by_completion (evs : list UiEvent) (s : State) (r : string) :
  runId s = Some r -> timeouts s = [] ->
  (forall ev env, In ev evs -> answers_of ev = Some env -> never_completed env) ->
  runId (handleAll evs s) = Some r /\
  timeouts (handleAll evs s) = [] /\
  (forall (env : Answers Request) text,
     runTask env (sendMessage text (handleAll evs s))
       = (Resolved tt, handleAll evs s, [])).
Proof.
  assert (Hgen : forall evs s,
             runId s = Some r -> timeouts s = [] ->
             (forall ev env, In ev evs -> answers_of ev = Some env ->
                             never_completed env) ->
             runId (handleAll evs s) = Some r /\ timeouts (handleAll evs s) = []).
  { clear evs s. induction evs as [| ev evs IH]; intros s Hr Hto Hnc; simpl;
      [now split |].
    destruct (handle_keeps_run ev s Hr Hto (fun env => Hnc ev env (or_introl eq_refl)))
      as [Hr' Hto'].
    apply IH; [exact Hr' | exact Hto' |].
    intros ev' env Hin. apply Hnc. now right. }
  intros Hr Hto Hnc. destruct (Hgen evs s Hr Hto Hnc) as [Hr' Hto'].
  split; [exact Hr' | split; [exact Hto' |]].
  intros env text. unfold sendMessage. rewrite Hr'. reflexivity.
Qed.

End EventLoop.

Section RelayOutcomes.

Import Backend.

Variable ASSISTANT_ID : string.

(** X13: the backend's [sendMessage] resolves exactly when all three of
    its calls do, and then with the run the API created.  When the
    message and the run are created and the record cannot be inserted,
    the function rejects with the store's error although the run has been
    started: the thread has one more run, of which the caller never
    learns the id, and no record. *)
Theorem backend_sendMessage_outcomes
    (env : Answers Call) (threadId text clientIp : string) :
  (forall run,
      fst (exec env (sendMessage ASSISTANT_ID threadId text clientIp)) = Resolved run <->
      env _ (MessagesCreate threadId "user" text) = Resolved tt /\
      env _ (RunsCreate threadId ASSISTANT_ID) = Resolved run /\
      env _ (InsertMessage threadId (run_id run) text clientIp) = Resolved tt) /\
  (forall run e,
      env _ (MessagesCreate threadId "user" text) = Resolved tt ->
      env _ (RunsCreate threadId ASSISTANT_ID) = Resolved run ->
      env _ (InsertMessage threadId (run_id run) text clientIp) = Rejected e ->
      fst (exec env (sendMessage ASSISTANT_ID threadId text clientIp)) = Rejected e /\
      forall w,
        runs_of threadId
          (effects (snd (exec env (sendMessage ASSISTANT_ID threadId text clientIp))) w)
          = runs_of threadId w ++ [run_id run] /\
        db_messages
          (effects (snd (exec env (sendMessage ASSISTANT_ID threadId text clientIp))) w)
          = db_messages w).
Proof.
  unfold exec, sendMessage. simpl.
  destruct (env _ (MessagesCreate threadId "user" text)) as [[] | e1]; simpl.
  2: { split; [intros run; split; [discriminate | intros (H & _); discriminate]
              | intros run e H; discriminate]. }
  destruct (env _ (RunsCreate threadId ASSISTANT_ID)) as [created | e2]; simpl.
  2: { split; [intros run; split; [discriminate | intros (_ & H & _); discriminate]
              | intros run e _ H; discriminate]. }
  destruct (env _ (InsertMessage threadId (run_id created) text clientIp))
    as [[] | e3] eqn:H3; simpl.
  - split.
    + intros run. split.
      * intros H. inversion H; subst. repeat split. exact H3.
      * intros (_ & H & _). inversion H; subst. reflexivity.
    + intros run e _ H. inversion H; subst. rewrite H3. discriminate.
  - split.
    + intros run. split; [discriminate |].
      intros (_ & H & Hi). inversion H; subst. rewrite H3 in Hi. discriminate.
    + intros run e _ H Hi. inversion H; subst. rewrite H3 in Hi.
      inversion Hi; subst. split; [reflexivity |].
      intros w. unfold runs_of. simpl. rewrite filter_app, map_app. simpl.
      rewrite String.eqb_refl. split; reflexivity.
Qed.

End RelayOutcomes.

Section RouteFacts.

Import Routes.

Variable ASSISTANT_ID : string.


(** X14: [/chat/list] looks the run up only when it is given a non-empty
    run id.  Without one, no run is retrieved and a response carries
    neither [status] nor [run].  With one, the messages are listed first,
    then the run is retrieved, then the thread record is written, and the
    response carries the listed messages in the order received, the run
    and its status.  Whenever the route responds, the messages of the
    response are the ones the API listed. *)
Theorem chatList_run_lookup
    (env : Answers Call) (threadId : string) (runId : option string) (clientIp : string) :
  (truthy runId = false ->
     existsb is_retrieve (snd (exec env (chatList threadId runId clientIp))) = false /\
     forall data,
       fst (exec env (chatList threadId runId clientIp)) = Resolved data ->
       d_status data = None /\ d_run data = None) /\
  (forall r messages run,
     runId = Some r -> r <> "" ->
     env _ (MessagesList threadId) = Resolved messages ->
     env _ (RunsRetrieve threadId r) = Resolved run ->
     env _ (UpdateThread threadId messages (Some (run_status run)) clientIp)
       = Resolved tt ->
     exec env (chatList threadId runId clientIp)
       = (Resolved {| d_messages := messages;
                      d_status := Some (run_status run);
                      d_run := Some (retrieved run) |},
          [ Log (MessagesList threadId) (Resolved messages);
            Log (RunsRetrieve threadId r) (Resolved run);
            Log (UpdateThread threadId messages (Some (run_status run)) clientIp)
              (Resolved tt) ])) /\
  (forall data,
     fst (exec env (chatList threadId runId clientIp)) = Resolved data ->
     env _ (MessagesList threadId) = Resolved (d_messages data)).
Proof.
  unfold exec, chatList, await, respond. split; [| split].
  - intros Hfalsy. simpl.
    destruct (env _ (MessagesList threadId)) as [messages | e]; simpl;
      [| split; [reflexivity | discriminate]].
    destruct runId as [r |]; [rewrite Hfalsy |]; simpl;
      destruct (env _ (UpdateThread threadId messages None clientIp)) as [[] | e];
      simpl; (split; [reflexivity |]); intros data H; inversion H; now split.
  - intros r messages run -> Hne Hlist Hrun Hup. simpl.
    apply String.eqb_neq in Hne. rewrite Hlist, Hne. simpl.
    rewrite Hrun. simpl. rewrite Hup. reflexivity.
  - simpl. destruct (env _ (MessagesList threadId)) as [messages | e]; simpl;
      [| discriminate].
    destruct runId as [r |]; [destruct (truthy (Some r)) |]; simpl.
    + destruct (env _ (RunsRetrieve threadId r)) as [run | e]; simpl; [| discriminate].
      destruct (env _ (UpdateThread threadId messages _ clientIp)) as [[] | e];
        simpl; intros data H; inversion H; reflexivity.
    + destruct (env _ (UpdateThread threadId messages None clientIp)) as [[] | e];
        simpl; intros data H; inversion H; reflexivity.
    + destruct (env _ (UpdateThread threadId messages None clientIp)) as [[] | e];
        simpl; intros data H; inversion H; reflexivity.
Qed.


(** X16: every route fails fast.  In every execution of [/chat/new],
    [/chat/send], [/chat/list], [/chat/submit] and [/chat/audio], all the
    calls made but the last resolved, no call follows one that failed,
    and the route responds exactly when the last call resolved too: a
    failure of the document store after the API calls succeeded leaves
    the client without a response. *)
Theorem routes_fail_fast (env : Answers Call) :
  (fail_fast (snd (exec env chatNew)) (is_resolved (fst (exec env chatNew))) = true) /\
  (forall threadId text clientIp,
      fail_fast (snd (exec env (chatSend ASSISTANT_ID threadId text clientIp)))
        (is_resolved (fst (exec env (chatSend ASSISTANT_ID threadId text clientIp))))
      = true) /\
  (forall threadId runId clientIp,
      fail_fast (snd (exec env (chatList threadId runId clientIp)))
        (is_resolved (fst (exec env (chatList threadId runId clientIp))))
      = true) /\
  (forall threadId runId outputs clientIp,
      fail_fast (snd (exec env (chatSubmit threadId runId outputs clientIp)))
        (is_resolved (fst (exec env (chatSubmit threadId runId outputs clientIp))))
      = true) /\
  (forall threadId audio clientIp,
      fail_fast (snd (exec env (chatAudio ASSISTANT_ID threadId audio clientIp)))
        (is_resolved (fst (exec env (chatAudio ASSISTANT_ID threadId audio clientIp))))
      = true).
Proof.
  assert (Hsend : forall threadId text clientIp,
             fail_fast (snd (exec env (chatSend ASSISTANT_ID threadId text clientIp)))
               (is_resolved (fst (exec env (chatSend ASSISTANT_ID threadId text clientIp))))
             = true).
  { intros threadId text clientIp.
    unfold exec, chatSend, Backend.sendMessage, respond. simpl.
    destruct (env _ (Relayed (Backend.MessagesCreate threadId "user" text)))
      as [[] | e1]; simpl; [| reflexivity].
    destruct (env _ (Relayed (Backend.RunsCreate threadId ASSISTANT_ID)))
      as [run | e2]; simpl; [| reflexivity].
    destruct (env _ (Relayed (Backend.InsertMessage threadId (run_id run) text clientIp)))
      as [[] | e3]; reflexivity. }
  split; [| split; [exact Hsend | split; [| split]]].
  - unfold exec, chatNew, await, respond. simpl.
    destruct (env _ ThreadsCreate); reflexivity.
  - intros threadId runId clientIp. unfold exec, chatList, await, respond. simpl.
    destruct (env _ (MessagesList threadId)) as [messages | e]; simpl; [| reflexivity].
    destruct runId as [r |]; [destruct (truthy (Some r)) |]; simpl.
    + destruct (env _ (RunsRetrieve threadId r)) as [run | e]; simpl; [| reflexivity].
      destruct (env _ (UpdateThread threadId messages _ clientIp)) as [[] | e];
        reflexivity.
    + destruct (env _ (UpdateThread threadId messages None clientIp)) as [[] | e];
        reflexivity.
    + destruct (env _ (UpdateThread threadId messages None clientIp)) as [[] | e];
        reflexivity.
  - intros threadId runId outputs clientIp.
    unfold exec, chatSubmit, await, respond. simpl.
    destruct (env _ (SubmitToolOutputs threadId runId outputs)) as [[] | e]; simpl;
      [| reflexivity].
    destruct (env _ (InsertSubmit threadId runId outputs clientIp)) as [[] | e];
      reflexivity.
  - intros threadId audio clientIp.
    unfold exec, chatAudio, await, Backend.sendMessage, respond. simpl.
    destruct (env _ (ToFile audio "audio.webm")) as [file | e]; simpl; [| reflexivity].
    destruct (env _ (TranscriptionsCreate "whisper-1" "json" file)) as [text | e];
      simpl; [| reflexivity].
    destruct (env _ (Relayed (Backend.MessagesCreate threadId "user" text)))
      as [[] | e1]; simpl; [| reflexivity].
    destruct (env _ (Relayed (Backend.RunsCreate threadId ASSISTANT_ID)))
      as [run | e2]; simpl; [| reflexivity].
    destruct (env _ (Relayed (Backend.InsertMessage threadId (run_id run) text clientIp)))
      as [[] | e3]; reflexivity.
Qed.

End RouteFacts.

Lemma updateMessages_timeouts_witness :
  timeouts (store (runTask Scenario.completing
                     (updateMessages (B := Example.browser)
                        (Example.mounted (Some "run_1")))))
  = [(5000, ClearRunId)].
Proof.
  exact (updateMessages_timeouts (B := Example.browser) Scenario.completing
           (Example.mounted (Some "run_1")) eq_refl).
Defined.

Lemma completed_turn_returns_to_idle_witness :
  fireTimeout
    (store (runTask Scenario.completing
              (updateMessages (B := Example.browser)
                 (store (runTask Scenario.completing
                           (sendMessage "Show me Paris" (Example.mounted None)))))))
  = setMessages [Example.older; Example.newer] (Example.mounted None).
Proof.
  exact (proj1 (proj2 (proj2
           (completed_turn_returns_to_idle (B := Example.browser)
              Scenario.completing Scenario.completing Example.offline
              (Example.mounted None) "Show me Paris" "Show me Rome"
              eq_refl eq_refl eq_refl ltac:(discriminate) eq_refl eq_refl)))).
Defined.

Lemma createThread_failures_witness :
  runTask Example.offline
    (createThread (B := Example.browser) (initialState (Some "thread_1")))
  = (Rejected "AxiosError", set_threadId (Some "thread_1") (initialState (Some "thread_1")),
     [WList (Some "thread_1") None (Rejected "AxiosError")]).
Proof.
  exact (proj1 (proj2 (createThread_failures (B := Example.browser) Example.offline
                         (initialState (Some "thread_1")) "AxiosError" eq_refl)
                  "thread_1" eq_refl ltac:(discriminate) eq_refl)).
Defined.

Lemma conversation_id_is_stable_witness :
  threadId (handleAll (B := Example.browser) Scenario.session (Example.mounted None))
    = Some "thread_1".
Proof.
  exact (proj1 (conversation_id_is_stable (B := Example.browser) Scenario.session
                  (Example.mounted None) eq_refl)).
Defined.

Lemma stored_conversation_is_kept_witness :
  localStorage (handleAll (B := Example.browser)
                  (Mounted Example.offline :: Scenario.session)
                  (initialState (Some "thread_1")))
    = Some "thread_1".
Proof.
  exact (proj1 (proj2 (stored_conversation_is_kept (B := Example.browser)
                         (Some "thread_1")
                         (Mounted Example.offline :: Scenario.session))
                  "thread_1" eq_refl ltac:(discriminate))).
Defined.

Lemma run_ends_only_by_completion_witness :
  runId (handleAll (B := Example.browser) Scenario.stuck
           (Example.mounted (Some "run_1")))
    = Some "run_1".
Proof.
  refine (proj1 (run_ends_only_by_completion (B := Example.browser) Scenario.stuck
                   (Example.mounted (Some "run_1")) eq_refl eq_refl _)).
  intros ev env Hin Hans.
  assert (Hfailing : never_completed Scenario.failing)
    by (intros t r data H; inversion H; reflexivity).
  assert (Hoffline : never_completed Example.offline)
    by (intros t r data H; discriminate H).
  simpl in Hin.
  destruct Hin as [<- | [<- | [<- | [<- | [<- | [<- | [<- | []]]]]]]];
    simpl in Hans; inversion Hans; subst; try assumption.
Defined.

Lemma backend_sendMessage_outcomes_witness :
  fst (Backend.exec (Routes.relayed_answers Scenario.remote)
         (Backend.sendMessage "asst_1" "thread_1" "Show me Paris" "203.0.113.7"))
    = Rejected "MongoError".
Proof.
  exact (proj1 (proj2 (backend_sendMessage_outcomes "asst_1"
                         (Routes.relayed_answers Scenario.remote)
                         "thread_1" "Show me Paris" "203.0.113.7")
                  Example.plain "MongoError" eq_refl eq_refl eq_refl)).
Defined.

Lemma chatList_run_lookup_witness :
  Routes.exec Scenario.remote (Routes.chatList "thread_1" (Some "run_1") "203.0.113.7")
  = (Resolved {| d_messages := [Example.newer; Example.older];
                 d_status := Some "in_progress";
                 d_run := Some Example.plain |},
     [ Routes.Log (Routes.MessagesList "thread_1")
         (Resolved [Example.newer; Example.older]);
       Routes.Log (Routes.RunsRetrieve "thread_1" "run_1")
         (Resolved {| Routes.retrieved := Example.plain;
                      Routes.run_status := "in_progress" |});
       Routes.Log (Routes.UpdateThread "thread_1" [Example.newer; Example.older]
                     (Some "in_progress") "203.0.113.7")
         (Resolved tt) ]).
Proof.
  exact (proj1 (proj2 (chatList_run_lookup Scenario.remote "thread_1" (Some "run_1")
                         "203.0.113.7"))
           "run_1" [Example.newer; Example.older]
           {| Routes.retrieved := Example.plain; Routes.run_status := "in_progress" |}
           eq_refl ltac:(discriminate) eq_refl eq_refl eq_refl).
Defined.

